(** * Rolling stocktake dashboard widget (frontend/src/Dashboard.tsx)

    A shallow embedding of the dashboard widget of the rolling-stocktake
    plugin.  The widget is a React function component: it reads the result of
    a cached query, builds an element tree, and hands work to the host
    (navigation, instance rendering, the count-stock form) through the plugin
    context.

    - JSON data received from the server is a [JsVal]; property access,
      truthiness, [?.], [??] and [||] follow JavaScript.
    - A component is a computation in the monad [M]: it threads a [World]
      (the query cache of the module-level [queryClient] and the list of calls
      made into the host) and may throw.
    - Closures handed to the host, to buttons or to the query client are
      defunctionalised ([Callback], [QueryFn]); [run_callback] and
      [run_queryFn] give their bodies.
    - Element trees are [Node]s, one [NElem] per JSX element. *)

From Stdlib Require Import List String ZArith Bool Lia.
Import ListNotations.
Open Scope string_scope.
Open Scope list_scope.
Local Set Warnings "-register-all".

(** ** JavaScript values *)

(** Parsed JSON, plus [undefined].  Numbers are the integral ones (primary
    keys, lengths); only their being zero or not is ever inspected. *)
Inductive JsVal : Type :=
| JUndefined
| JNull
| JBool (b : bool)
| JNum (n : Z)
| JStr (s : string)
| JArr (elems : list JsVal)
| JObj (fields : list (string * JsVal)).

Inductive Exn : Type :=
| TypeError (msg : string)
| NetworkError (msg : string).

(** ToBoolean. *)
Definition truthy (v : JsVal) : bool :=
  match v with
  | JUndefined | JNull => false
  | JBool b => b
  | JNum n => negb (n =? 0)%Z
  | JStr s => negb (s =? "")
  | JArr _ | JObj _ => true
  end.

Definition nullish (v : JsVal) : bool :=
  match v with
  | JUndefined | JNull => true
  | _ => false
  end.

Fixpoint lookup_field (f : string) (fields : list (string * JsVal)) : JsVal :=
  match fields with
  | [] => JUndefined
  | (k, v) :: rest => if k =? f then v else lookup_field f rest
  end.

(** [v.f] for the data properties the widget reads ([pk], [location_detail],
    [stocktake_date], [items], [length]): a TypeError on [null] and
    [undefined], the own property of an object, the length of an array or
    string, [undefined] otherwise. *)
Definition get_prop (v : JsVal) (f : string) : Exn + JsVal :=
  match v with
  | JUndefined => inl (TypeError "Cannot read properties of undefined")
  | JNull => inl (TypeError "Cannot read properties of null")
  | JObj fields => inr (lookup_field f fields)
  | JArr elems =>
      inr (if f =? "length" then JNum (Z.of_nat (List.length elems)) else JUndefined)
  | JStr s =>
      inr (if f =? "length" then JNum (Z.of_nat (String.length s)) else JUndefined)
  | JBool _ | JNum _ => inr JUndefined
  end.

(** [v?.f] *)
Definition get_prop_opt (v : JsVal) (f : string) : JsVal :=
  match get_prop v f with
  | inl _ => JUndefined
  | inr x => x
  end.

(** [a ?? b] *)
Definition nullish_coalesce (a b : JsVal) : JsVal :=
  if nullish a then b else a.

(** [a || b] *)
Definition js_or (a b : JsVal) : JsVal :=
  if truthy a then a else b.

(** [a === 0] *)
Definition strict_eq_zero (a : JsVal) : bool :=
  match a with
  | JNum n => (n =? 0)%Z
  | _ => false
  end.

(** ** The host interface *)

(** The members of the host's [ModelType] enumeration that the widget names. *)
Inductive ModelType : Type := stockitem | stocklocation.

(** [getDetailUrl(model, pk)] is the host's; its result is kept symbolic. *)
Inductive Url : Type :=
| getDetailUrl (model : ModelType) (pk : JsVal).

Inductive HttpMethod : Type := GET | POST | PUT | PATCH | DELETE.

Definition QueryKey : Type := list string.

(** The closures the widget creates. *)
Inductive Callback : Type :=
| navigateToItem (item : JsVal)      (* lines 42-46, closed over [item] *)
| refresh                            (* lines 106-108 *)
| refetch                            (* line 183 *)
| countStockForm_open.               (* the host's [countStockForm.open] *)

(** Argument of [context.renderInstance]. *)
Record InstanceProps : Type := {
  instance : JsVal;
  model : ModelType;
  extra : list (string * JsVal)
}.

(** Argument of [context.forms.stockActions.countStock]. *)
Record CountStockProps : Type := {
  cs_items : JsVal;
  cs_model : ModelType;
  cs_refresh : Callback
}.

(** Calls made into the host context, in the order they are made. *)
Inductive HostCall : Type :=
| CallCountStock (props : CountStockProps)
| CallRenderInstance (props : InstanceProps)
| CallNavigate (url : Url)
| CallFormOpen
| CallApi (method : HttpMethod) (url : string)
| CallCheckPluginVersion.

(** The plugin context: the HTTP client, when there is one, answers its
    n-th request (counted from 0) with a response body or a rejection. *)
Record InvenTreePluginContext : Type := {
  api : option (nat -> Exn + JsVal);
  theme_primaryColor : string;
  locale : string
}.

(** ** Element trees *)

Inductive PropVal : Type :=
| PStr (s : string)          (* a string literal *)
| PNum (n : Z)
| PFlag                      (* an attribute without value, as [grow] *)
| PTr (msgid : string)       (* a message translated by the [t] macro *)
| PJs (v : JsVal)            (* a JavaScript value *)
| PIcon (name : string)      (* an icon element *)
| POnClick (cb : Callback).

(** What the host returns to be placed in the tree. *)
Inductive HostNode : Type :=
| Rendered (props : InstanceProps)   (* result of [context.renderInstance] *)
| Modal.                             (* [countStockForm.modal] *)

Inductive Node : Type :=
| NTr (msgid : string)       (* a translated text child *)
| NJs (v : JsVal)            (* a JavaScript value as a child *)
| NHost (h : HostNode)
| NElem (tag : string) (props : list (string * PropVal)) (children : list Node).

(** ** The query client (TanStack Query)

    The library is not part of this repository.  What follows is the part of
    its documented behaviour that the widget relies on: a cache of query
    states by key, the flags of a query result, the start of a fetch (which
    calls the query function at once), invalidation by key, and the course
    of a fetch with the library's retry default.

    A query function is an [async] closure.  The one of this widget (lines
    165-168) is closed over the plugin context; it is kept as data, like the
    other closures, and run in two parts: up to its [await], where the
    request is sent, and from the [await] on, when the answer is there. *)

Inductive QueryStatus : Type := pending | error | success.
Inductive FetchStatus : Type := fetching | paused | idle.

(** The query functions of the program. *)
Inductive QueryFn : Type :=
| fetchNextItem (context : InvenTreePluginContext).   (* lines 165-168 *)

(** What a query function that has been called is waiting for. *)
Inductive Pending : Type :=
| AwaitsResponse (n : nat)     (* the answer to the n-th request *)
| AwaitsNothing.               (* [undefined]: nothing was requested *)

(** Construction options of a [QueryClient] and options of a query: the
    members that matter here.  A member that is not given is [None]. *)
Record QueryClientConfig : Type := {
  default_retry : option nat
}.

Record UseQueryOptions : Type := {
  enabled : bool;
  queryKey : QueryKey;
  queryFn : QueryFn;
  retry : option nat
}.

Record QueryState : Type := {
  q_data : JsVal;                 (* [undefined] until a fetch succeeded *)
  q_status : QueryStatus;
  q_fetchStatus : FetchStatus;
  q_isInvalidated : bool;
  q_failureCount : nat;
  q_observer : option UseQueryOptions;  (* the options of the [useQuery] that
                                           is subscribed to the query, if any *)
  q_promise : option Pending      (* what the fetch that was started waits for *)
}.

Definition QueryCache : Type := list (QueryKey * QueryState).

(** The result object [useQuery] returns, with the members the widget reads. *)
Record UseQueryResult : Type := {
  data : JsVal;
  isLoading : bool;
  isFetching : bool;
  isError : bool;
  isSuccess : bool
}.

(** ** Worlds and the component monad *)

Record World : Type := {
  cache : QueryCache;           (* the cache of [queryClient] (line 31) *)
  calls : list HostCall         (* host calls so far, oldest first *)
}.

Definition M (A : Type) : Type := World -> World * (Exn + A).

Definition ret {A} (a : A) : M A := fun w => (w, inr a).

Definition bind {A B} (m : M A) (k : A -> M B) : M B :=
  fun w =>
    match m w with
    | (w', inl e) => (w', inl e)
    | (w', inr a) => k a w'
    end.

Definition throw {A} (e : Exn) : M A := fun w => (w, inl e).

Definition lift {A} (r : Exn + A) : M A := fun w => (w, r).

Notation "x <- m ;; k" := (bind m (fun x => k))
  (at level 61, m at next level, right associativity).
Notation "m ;;; k" := (bind m (fun _ => k))
  (at level 61, right associativity).

(** A call into the host: recorded in the world. *)
Definition call (c : HostCall) : M unit :=
  fun w => ({| cache := cache w; calls := calls w ++ [c] |}, inr tt).

Fixpoint mapM {A B} (f : A -> M B) (l : list A) : M (list B) :=
  match l with
  | [] => ret []
  | a :: rest => b <- f a ;; bs <- mapM f rest ;; ret (b :: bs)
  end.

Definition world_of {A} (r : World * (Exn + A)) : World := fst r.
Definition result_of {A} (r : World * (Exn + A)) : Exn + A := snd r.

(** ** The query function *)

(** line 33 *)
Definition NEXT_ITEM_URL : string := "/plugin/rolling-stocktake/next/".

Definition is_api_call (c : HostCall) : bool :=
  match c with CallApi _ _ => true | _ => false end.

(** The number of requests sent so far. *)
Definition requests_sent (w : World) : nat :=
  List.length (filter is_api_call (calls w)).

(** lines 165-168: the query function.  Without an HTTP client
    [context.api?.get(...)] is [undefined] and reading [response.data]
    throws; a rejected request throws at the [await]. *)
Definition next_item_queryFn (context : InvenTreePluginContext) : M JsVal :=
  match api context with
  | None => throw (TypeError "Cannot read properties of undefined (reading 'data')")
  | Some respond =>
      fun w =>
        (call (CallApi GET NEXT_ITEM_URL) ;;; lift (respond (requests_sent w))) w
  end.

(** The same function in its two parts.  Up to the [await]:
    [context.api?.get(NEXT_ITEM_URL)] sends the request, or is [undefined]
    without an HTTP client. *)
Definition next_item_request (context : InvenTreePluginContext) : M Pending :=
  match api context with
  | None => ret AwaitsNothing
  | Some _ =>
      fun w =>
        (call (CallApi GET NEXT_ITEM_URL) ;;; ret (AwaitsResponse (requests_sent w))) w
  end.

(** From the [await] on: a rejection is thrown, [response.data] returned;
    reading [data] of [undefined] throws. *)
Definition next_item_response (context : InvenTreePluginContext) (p : Pending)
  : Exn + JsVal :=
  match p, api context with
  | AwaitsResponse n, Some respond => respond n
  | _, _ => inl (TypeError "Cannot read properties of undefined (reading 'data')")
  end.

Definition run_queryFn (fn : QueryFn) : M JsVal :=
  match fn with fetchNextItem context => next_item_queryFn context end.

Definition call_queryFn (fn : QueryFn) : M Pending :=
  match fn with fetchNextItem context => next_item_request context end.

Definition await_queryFn (fn : QueryFn) (p : Pending) : Exn + JsVal :=
  match fn with fetchNextItem context => next_item_response context p end.

(** ** The query client, continued *)

(** Modelled from the library's documentation ("Important Defaults": a query
    that fails is silently retried 3 times before the error is reported). *)
Definition LIBRARY_DEFAULT_RETRY : nat := 3.

Definition resolve_retry (client : QueryClientConfig) (opts : UseQueryOptions) : nat :=
  match retry opts with
  | Some n => n
  | None =>
      match default_retry client with
      | Some n => n
      | None => LIBRARY_DEFAULT_RETRY
      end
  end.

Definition key_eqb (a b : QueryKey) : bool :=
  if list_eq_dec string_dec a b then true else false.

(** A query filter [{ queryKey }] matches every key that starts with it. *)
Fixpoint key_prefix (p k : QueryKey) : bool :=
  match p, k with
  | [], _ => true
  | x :: p', y :: k' => (x =? y) && key_prefix p' k'
  | _ :: _, [] => false
  end.

Fixpoint find_query (k : QueryKey) (c : QueryCache) : option QueryState :=
  match c with
  | [] => None
  | (k', st) :: rest => if key_eqb k' k then Some st else find_query k rest
  end.

Fixpoint set_query (k : QueryKey) (st : QueryState) (c : QueryCache) : QueryCache :=
  match c with
  | [] => [(k, st)]
  | (k', st') :: rest =>
      if key_eqb k' k then (k, st) :: rest else (k', st') :: set_query k st rest
  end.

Definition is_pending (s : QueryStatus) : bool :=
  match s with pending => true | _ => false end.
Definition is_error (s : QueryStatus) : bool :=
  match s with error => true | _ => false end.
Definition is_success (s : QueryStatus) : bool :=
  match s with success => true | _ => false end.
Definition is_fetching (s : FetchStatus) : bool :=
  match s with fetching => true | _ => false end.

(** The flags of a result are derived from the two statuses, as in
    version 5 of the library (the one whose [useQuery] takes the client as
    its second argument): [isLoading] is [isFetching && isPending]. *)
Definition observe (st : QueryState) : UseQueryResult :=
  {| data := q_data st;
     isLoading := is_fetching (q_fetchStatus st) && is_pending (q_status st);
     isFetching := is_fetching (q_fetchStatus st);
     isError := is_error (q_status st);
     isSuccess := is_success (q_status st) |}.

(** A query as [useQuery] first builds it: observed, nothing fetched yet;
    for an enabled query a fetch is due, but the query function has not been
    called yet (that happens after the render). *)
Definition initial_query (opts : UseQueryOptions) : QueryState :=
  {| q_data := JUndefined;
     q_status := pending;
     q_fetchStatus := if enabled opts then fetching else idle;
     q_isInvalidated := false;
     q_failureCount := 0;
     q_observer := Some opts;
     q_promise := None |}.

Definition with_cache (c : QueryCache) (w : World) : World :=
  {| cache := c; calls := calls w |}.

(** [useQuery(options, queryClient)]: the state of the query under the key,
    built on first use.  A query that is in the cache is taken to be the one
    this widget has built and observes. *)
Definition useQuery (opts : UseQueryOptions) : M UseQueryResult :=
  fun w =>
    match find_query (queryKey opts) (cache w) with
    | Some st => (w, inr (observe st))
    | None =>
        let st := initial_query opts in
        (with_cache (set_query (queryKey opts) st (cache w)) w, inr (observe st))
    end.

Definition is_undefined (v : JsVal) : bool :=
  match v with JUndefined => true | _ => false end.

Definition is_idle (s : FetchStatus) : bool :=
  match s with idle => true | _ => false end.

(** [query.invalidate()] *)
Definition invalidate (st : QueryState) : QueryState :=
  {| q_data := q_data st;
     q_status := q_status st;
     q_fetchStatus := q_fetchStatus st;
     q_isInvalidated := true;
     q_failureCount := q_failureCount st;
     q_observer := q_observer st;
     q_promise := q_promise st |}.

(** The state of a query whose fetch has been started and waits for [p]:
    fetching, no failure counted; a query without data is pending again. *)
Definition fetch_started (st : QueryState) (p : Pending) : QueryState :=
  {| q_data := q_data st;
     q_status := if is_undefined (q_data st) then pending else q_status st;
     q_fetchStatus := fetching;
     q_isInvalidated := q_isInvalidated st;
     q_failureCount := 0;
     q_observer := q_observer st;
     q_promise := Some p |}.

(** A fetch that is running is joined by a new one when the query has no
    data yet; with data it is dropped and started again. *)
Definition joins_running_fetch (st : QueryState) : bool :=
  negb (is_idle (q_fetchStatus st)) && is_undefined (q_data st) &&
  match q_promise st with Some _ => true | None => false end.

(** [query.fetch()], as [refetch] and [invalidateQueries] call it: the
    query function is called within the call, so the request is sent at
    once; its answer is waited for. *)
Definition start_fetch (fn : QueryFn) (st : QueryState) : M QueryState :=
  if joins_running_fetch st then ret st
  else p <- call_queryFn fn ;; ret (fetch_started st p).

(** Invalidation of one query: marked invalidated, and fetched again when
    it is observed by an enabled [useQuery]. *)
Definition invalidate_query (st : QueryState) : M QueryState :=
  match q_observer (invalidate st) with
  | Some opts =>
      if enabled opts then start_fetch (queryFn opts) (invalidate st)
      else ret (invalidate st)
  | None => ret (invalidate st)
  end.

Fixpoint invalidate_matching (filter : QueryKey) (c : QueryCache) : M QueryCache :=
  match c with
  | [] => ret []
  | (k, st) :: rest =>
      st' <- (if key_prefix filter k then invalidate_query st else ret st) ;;
      rest' <- invalidate_matching filter rest ;;
      ret ((k, st') :: rest')
  end.

(** Replaces the cache of the world. *)
Definition put_cache (c : QueryCache) : M unit :=
  fun w => (with_cache c w, inr tt).

(** [queryClient.invalidateQueries({ queryKey })] *)
Definition invalidateQueries (filter : QueryKey) : M unit :=
  fun w => (c <- invalidate_matching filter (cache w) ;; put_cache c) w.

(** [itemQuery.refetch()]: the fetch of the observed query is started. *)
Definition refetch_query (k : QueryKey) : M unit :=
  fun w =>
    match find_query k (cache w) with
    | Some st =>
        match q_observer st with
        | Some opts =>
            (st' <- start_fetch (queryFn opts) st ;;
             fun w1 => (with_cache (set_query k st' (cache w1)) w1, inr tt)) w
        | None => (w, inr tt)
        end
    | None => (w, inr tt)
    end.

(** One run of the query function and, while it fails, up to [retries] more.
    The count of failed runs is returned with the outcome. *)
Fixpoint run_with_retry (retries : nat) (fn : M JsVal) (failures : nat)
  : World -> World * (nat * (Exn + JsVal)) :=
  fun w =>
    match fn w with
    | (w', inr d) => (w', (failures, inr d))
    | (w', inl e) =>
        match retries with
        | 0 => (w', (S failures, inl e))
        | S n => run_with_retry n fn (S failures) w'
        end
    end.

(** The same from an outcome that is already there. *)
Definition continue_with_retry (retries : nat) (fn : M JsVal) (failures : nat)
    (w : World) (r : Exn + JsVal) : World * (nat * (Exn + JsVal)) :=
  match r with
  | inr d => (w, (failures, inr d))
  | inl e =>
      match retries with
      | 0 => (w, (S failures, inl e))
      | S n => run_with_retry n fn (S failures) w
      end
  end.

(** The state a fetch leaves: the data on success (a query function may not
    resolve to [undefined]: that is reported as an error), the error state
    with the previous data otherwise. *)
Definition settle (st : QueryState) (failures : nat) (r : Exn + JsVal) : QueryState :=
  match r with
  | inr d =>
      if is_undefined d then
        {| q_data := q_data st; q_status := error; q_fetchStatus := idle;
           q_isInvalidated := true; q_failureCount := S failures;
           q_observer := q_observer st; q_promise := None |}
      else
        {| q_data := d; q_status := success; q_fetchStatus := idle;
           q_isInvalidated := false; q_failureCount := 0;
           q_observer := q_observer st; q_promise := None |}
  | inl _ =>
      {| q_data := q_data st; q_status := error; q_fetchStatus := idle;
         q_isInvalidated := true; q_failureCount := failures;
         q_observer := q_observer st; q_promise := None |}
  end.

(** The course of the fetch of the query under the key of [opts], from
    where it stands to its end.  A fetch that is due and not started (after
    the first render) is started; a fetch that was started gets its answer.
    While the outcome is a failure the query function is run again, up to
    the number of retries; the outcome is stored. *)
Definition fetch_query (client : QueryClientConfig) (opts : UseQueryOptions) : M unit :=
  fun w =>
    match find_query (queryKey opts) (cache w) with
    | Some st =>
        if is_fetching (q_fetchStatus st) then
          let '(w', (failures, r)) :=
            match q_promise st with
            | None =>
                run_with_retry (resolve_retry client opts) (run_queryFn (queryFn opts)) 0 w
            | Some p =>
                continue_with_retry (resolve_retry client opts)
                  (run_queryFn (queryFn opts)) 0 w (await_queryFn (queryFn opts) p)
            end in
          (with_cache (set_query (queryKey opts) (settle st failures r) (cache w')) w',
           inr tt)
        else (w, inr tt)
    | None => (w, inr tt)
    end.

(** ** The widget *)

(** line 31: [new QueryClient()] *)
Definition queryClient : QueryClientConfig := {| default_retry := None |}.

(** [context.renderInstance(props)] *)
Definition renderInstance (props : InstanceProps) : M Node :=
  call (CallRenderInstance props) ;;;
  ret (NHost (Rendered props)).

(** The bodies of the closures. *)
Definition run_callback (cb : Callback) : M unit :=
  match cb with
  | navigateToItem item =>
      if truthy (get_prop_opt item "pk") then
        pk <- lift (get_prop item "pk") ;;
        call (CallNavigate (getDetailUrl stockitem pk))
      else ret tt
  | refresh => invalidateQueries ["next-item"]
  | refetch => refetch_query ["next-item"]
  | countStockForm_open => call CallFormOpen
  end.

(** lines 35-94 *)
Definition RenderStockItem (context : InvenTreePluginContext) (item : JsVal) : M Node :=
  item_cell <- renderInstance {| instance := item; model := stockitem; extra := [] |} ;;
  location_detail <- lift (get_prop item "location_detail") ;;
  location_cell <-
    (if truthy location_detail then
       renderInstance {| instance := location_detail;
                         model := stocklocation;
                         extra := [("show_location", JBool false)] |}
     else
       ret (NElem "Text" [("size", PStr "sm"); ("c", PStr "dimmed")]
              [NTr "No location"])) ;;
  stocktake_date <- lift (get_prop item "stocktake_date") ;;
  let date_cell :=
    if truthy stocktake_date then
      NElem "Text" [("size", PStr "sm")] [NJs stocktake_date]
    else
      NElem "Text" [("c", PStr "red"); ("size", PStr "sm")] [NTr "Never"] in
  ret (NElem "Table.Tr" []
         [ NElem "Table.Td" [] [item_cell];
           NElem "Table.Td" [] [location_cell];
           NElem "Table.Td" [] [date_cell];
           NElem "Table.Td" []
             [NElem "Group" [("gap", PStr "xs")]
                [NElem "ActionIcon"
                   [("color", PStr "blue"); ("variant", PStr "light");
                    ("onClick", POnClick (navigateToItem item));
                    ("title", PTr "View Item")]
                   [NElem "IconEye" [("size", PNum 16)] []]]] ]).

(** [items.map(f)] *)
Definition js_map {B} (items : JsVal) (f : JsVal -> M B) : M (list B) :=
  match items with
  | JArr elems => mapM f elems
  | _ => throw (TypeError "items.map is not a function")
  end.

Definition all_up_to_date : Node :=
  NElem "Alert"
    [("color", PStr "green"); ("title", PTr "All up to date!");
     ("icon", PIcon "IconCircleCheck")]
    [NElem "Text" [("size", PStr "sm")]
       [NTr "Nice work, you have counted enough items today."]].

(** lines 96-154.  The row elements are created, each with its key, when
    [items.map] runs; the rows are rendered after that, in order. *)
Definition RenderStockItems (context : InvenTreePluginContext) (items : JsVal) : M Node :=
  call (CallCountStock {| cs_items := js_or items (JArr []);
                          cs_model := stockitem;
                          cs_refresh := refresh |}) ;;;
  let countStockForm_modal := NHost Modal in
  items_length <- (if truthy items then lift (get_prop items "length") else ret JUndefined) ;;
  if negb (truthy items) || strict_eq_zero items_length then
    ret all_up_to_date
  else
    elements <- js_map items (fun item =>
                  key <- lift (get_prop item "pk") ;; ret (key, item)) ;;
    rows <- mapM (fun '(key, item) =>
                  row <- RenderStockItem context item ;;
                  ret (NElem "RenderStockItem" [("key", PJs key)] [row]))
                 elements ;;
    ret (NElem "Stack" [("gap", PStr "xs")]
           [ countStockForm_modal;
             NElem "Table" []
               [ NElem "Table.Thead" []
                   [NElem "Table.Tr" []
                      [ NElem "Table.Th" [] [NTr "Stock Item"];
                        NElem "Table.Th" [] [NTr "Location"];
                        NElem "Table.Th" [] [NTr "Last Stocktake"];
                        NElem "Table.Th" [] [NTr "Actions"] ]];
                 NElem "Table.Tbody" [] rows ];
             NElem "Divider" [] [];
             NElem "Group" [("grow", PFlag)]
               [NElem "Button"
                  [("color", PStr "green"); ("variant", PStr "filled");
                   ("leftSection", PIcon "IconClipboardCheck");
                   ("onClick", POnClick countStockForm_open)]
                  [NTr "Count Stock"]] ]).

(** lines 162-169 *)
Definition itemQuery_options (context : InvenTreePluginContext) : UseQueryOptions :=
  {| enabled := true;
     queryKey := ["next-item"];
     queryFn := fetchNextItem context;
     retry := None |}.

Definition when (b : bool) (n : Node) : list Node := if b then [n] else [].

Definition error_alert : Node :=
  NElem "Alert" [("color", PStr "red"); ("title", PStr "Error")]
    [NElem "Text" [("size", PStr "sm")]
       [NTr "Error loading stock information from server."]].

(** lines 173-175 *)
Definition stockItems (itemQuery : UseQueryResult) : JsVal :=
  nullish_coalesce (get_prop_opt (data itemQuery) "items") (JArr []).

(** lines 177-198, for a given query result. *)
Definition render_dashboard (context : InvenTreePluginContext)
    (itemQuery : UseQueryResult) : M Node :=
  items_view <-
    (if negb (isLoading itemQuery) && isSuccess itemQuery then
       n <- RenderStockItems context (stockItems itemQuery) ;;
       ret [NElem "RenderStockItems" [] [n]]
     else ret []) ;;
  ret (NElem "Stack" [("gap", PStr "xs")]
         ([ NElem "Group" [("justify", PStr "space-between")]
              [ NElem "Title" [("c", PStr (theme_primaryColor context)); ("order", PNum 4)]
                  [NTr "Rolling Stocktake"];
                NElem "ActionIcon"
                  [("variant", PStr "transparent"); ("onClick", POnClick refetch)]
                  [NElem "IconRefresh" [] []] ];
            NElem "Divider" [] [] ]
          ++ when (isLoading itemQuery || isFetching itemQuery)
               (NElem "Loader" [("size", PStr "sm")] [])
          ++ when (negb (isLoading itemQuery) && negb (isFetching itemQuery)
                   && isError itemQuery)
               error_alert
          ++ items_view)).

(** lines 156-199 *)
Definition RollingStocktakeDashboardItem (context : InvenTreePluginContext) : M Node :=
  itemQuery <- useQuery (itemQuery_options context) ;;
  render_dashboard context itemQuery.

(** lines 203-212: the function the host calls to render the widget. *)
Definition renderRollingStocktakeDashboardItem (context : InvenTreePluginContext) : M Node :=
  call CallCheckPluginVersion ;;;
  n <- RollingStocktakeDashboardItem context ;;
  ret (NElem "LocalizedComponent" [("locale", PStr (locale context))] [n]).

(** ** Reading element trees *)

Definition tag (n : Node) : string :=
  match n with NElem t _ _ => t | _ => "" end.

Definition children (n : Node) : list Node :=
  match n with NElem _ _ c => c | _ => [] end.

Definition props (n : Node) : list (string * PropVal) :=
  match n with NElem _ p _ => p | _ => [] end.

Definition has_tag (t : string) (n : Node) : bool := tag n =? t.

Fixpoint prop (name : string) (ps : list (string * PropVal)) : option PropVal :=
  match ps with
  | [] => None
  | (k, v) :: rest => if k =? name then Some v else prop name rest
  end.

(** The rows of the table that [RenderStockItems] returns. *)
Definition table_rows (n : Node) : list Node :=
  match find (has_tag "Table") (children n) with
  | Some t =>
      match find (has_tag "Table.Tbody") (children t) with
      | Some body => children body
      | None => []
      end
  | None => []
  end.

(** The cells of a row: the children of the [Table.Td]s of its [Table.Tr]. *)
Definition row_cells (row : Node) : list (list Node) :=
  match children row with
  | [tr] => map children (children tr)
  | _ => []
  end.

(** The item a row shows: the instance the host rendered in its first cell. *)
Definition row_item (row : Node) : option JsVal :=
  if has_tag "RenderStockItem" row then
    match row_cells row with
    | [NHost (Rendered p)] :: _ =>
        match model p with stockitem => Some (instance p) | _ => None end
    | _ => None
    end
  else None.

(** The four things the widget shows below its title. *)
Inductive Panel : Type := Loading | ErrorAlert | UpToDate | ItemTable.

Definition is_alert (color : string) (n : Node) : bool :=
  has_tag "Alert" n &&
  match prop "color" (props n) with
  | Some (PStr c) => c =? color
  | _ => false
  end.

(** A table together with a button. *)
Definition is_item_table (n : Node) : bool :=
  has_tag "Stack" n &&
  existsb (has_tag "Table") (children n) &&
  existsb (fun g => existsb (has_tag "Button") (children g)) (children n).

Definition panel_of (n : Node) : option Panel :=
  if has_tag "Loader" n then Some Loading
  else if is_alert "red" n then Some ErrorAlert
  else if has_tag "RenderStockItems" n then
    match children n with
    | [c] =>
        if is_alert "green" c then Some UpToDate
        else if is_item_table c then Some ItemTable
        else None
    | _ => None
    end
  else None.

(** The panels among the children of the widget's root element, in order. *)
Definition panels (root : Node) : list Panel :=
  flat_map (fun c => match panel_of c with Some p => [p] | None => [] end)
           (children root).

Definition is_render_call (c : HostCall) : bool :=
  match c with CallRenderInstance _ => true | _ => false end.

Definition add_calls (l : list HostCall) (w : World) : World :=
  {| cache := cache w; calls := calls w ++ l |}.

(** ** Sessions

    What happens to a mounted widget, one event at a time: React renders it,
    the query client performs a due fetch, the user clicks a button, the
    host's count-stock form, built from the props the factory was given,
    completes and calls the [refresh] of these props. *)
Inductive Event : Type :=
| Render
| Fetch
| Click (cb : Callback)
| FormCompleted (form : CountStockProps).

Definition handle (context : InvenTreePluginContext) (e : Event) : M unit :=
  match e with
  | Render => RollingStocktakeDashboardItem context ;;; ret tt
  | Fetch => fetch_query queryClient (itemQuery_options context)
  | Click cb => run_callback cb
  | FormCompleted form => run_callback (cs_refresh form)
  end.

(** An event that throws does not stop the session: the world it leaves is
    the one the next event starts in. *)
Fixpoint session (context : InvenTreePluginContext) (es : list Event) (w : World) : World :=
  match es with
  | [] => w
  | e :: rest => session context rest (world_of (handle context e w))
  end.

Definition empty_world : World := {| cache := []; calls := [] |}.

(** ** Host calls and panels of the components *)

Definition item_props (item : JsVal) : InstanceProps :=
  {| instance := item; model := stockitem; extra := [] |}.

Definition location_props (location_detail : JsVal) : InstanceProps :=
  {| instance := location_detail; model := stocklocation;
     extra := [("show_location", JBool false)] |}.

(** The host calls that rendering the row of [item] makes. *)
Definition row_calls (item : JsVal) : list HostCall :=
  CallRenderInstance (item_props item)
  :: (if truthy (get_prop_opt item "location_detail")
      then [CallRenderInstance (location_props (get_prop_opt item "location_detail"))]
      else []).

Definition no_location : Node :=
  NElem "Text" [("size", PStr "sm"); ("c", PStr "dimmed")] [NTr "No location"].

Definition never : Node :=
  NElem "Text" [("c", PStr "red"); ("size", PStr "sm")] [NTr "Never"].

(** The location and date cells of a row, by the value of the field. *)
Definition location_cell (location_detail : JsVal) : Node :=
  if truthy location_detail then NHost (Rendered (location_props location_detail))
  else no_location.

Definition date_cell (stocktake_date : JsVal) : Node :=
  if truthy stocktake_date then NElem "Text" [("size", PStr "sm")] [NJs stocktake_date]
  else never.

(** The test of line 111: [!items || items.length === 0]. *)
Definition no_items (items : JsVal) : bool :=
  negb (truthy items) || strict_eq_zero (get_prop_opt items "length").

(** The props of lines 103-109. *)
Definition count_stock_props (items : JsVal) : CountStockProps :=
  {| cs_items := js_or items (JArr []);
     cs_model := stockitem;
     cs_refresh := refresh |}.

Definition count_stock_call (items : JsVal) : HostCall :=
  CallCountStock (count_stock_props items).

Definition table_calls (elems : list JsVal) : list HostCall :=
  count_stock_call (JArr elems) :: flat_map row_calls elems.

Definition panel_when (b : bool) (p : Panel) : list Panel := if b then [p] else [].

(** The guards of lines 188, 189 and 194. *)
Definition shows_loader (q : UseQueryResult) : bool := isLoading q || isFetching q.

Definition shows_error (q : UseQueryResult) : bool :=
  negb (isLoading q) && negb (isFetching q) && isError q.

Definition shows_items (q : UseQueryResult) : bool :=
  negb (isLoading q) && isSuccess q.

(** The one request of the widget. *)
Definition get_next_item : HostCall := CallApi GET NEXT_ITEM_URL.

Definition is_get_next_item (c : HostCall) : bool :=
  match c with
  | CallApi GET url => url =? NEXT_ITEM_URL
  | _ => false
  end.

Definition not_api_call (c : HostCall) : bool := negb (is_api_call c).

(** A call that is either no network request or the GET of line 166. *)
Definition request_ok (c : HostCall) : bool :=
  not_api_call c || is_get_next_item c.

(** Mounting the widget and letting its first fetch finish. *)
Definition mount_and_fetch (context : InvenTreePluginContext) (w : World) : World :=
  session context [Render; Fetch] w.

Definition is_loading_panel (p : Panel) : bool :=
  match p with Loading => true | _ => false end.

(** The items shown by the widget: those of the rows of its table. *)
Definition displayed_items (root : Node) : list (option JsVal) :=
  match find (has_tag "RenderStockItems") (children root) with
  | Some view =>
      match children view with
      | [t] => map row_item (table_rows t)
      | _ => []
      end
  | None => []
  end.

(** ** Sample data *)

Definition shelf : JsVal := JObj [("pk", JNum 3); ("name", JStr "Shelf 3")].

Definition counted_item : JsVal :=
  JObj [("pk", JNum 7); ("location_detail", shelf);
        ("stocktake_date", JStr "2024-01-01")].

Definition uncounted_item : JsVal := JObj [("pk", JNum 9); ("quantity", JNum 4)].

Definition item_without_pk : JsVal := JObj [("stocktake_date", JNull)].

(** A host whose server answers every request with [body]. *)
Definition serving (body : JsVal) : InvenTreePluginContext :=
  {| api := Some (fun _ => inr body); theme_primaryColor := "blue"; locale := "en" |}.

(** A host whose server rejects every request. *)
Definition rejecting : InvenTreePluginContext :=
  {| api := Some (fun _ => inl (NetworkError "Request failed with status code 500"));
     theme_primaryColor := "blue"; locale := "en" |}.

Definition two_items : JsVal := JObj [("items", JArr [uncounted_item; counted_item])].

(** ** Actions, keys and kinds of calls *)

Definition prop_handlers (ps : list (string * PropVal)) : list Callback :=
  flat_map (fun p => match snd p with POnClick cb => [cb] | _ => [] end) ps.

(** The [onClick] handlers of a tree, in document order. *)
Fixpoint handlers (n : Node) : list Callback :=
  match n with
  | NElem _ ps cs => prop_handlers ps ++ flat_map handlers cs
  | _ => []
  end.

(** The React key of a row element (line 137). *)
Definition row_key (row : Node) : option JsVal :=
  match prop "key" (props row) with
  | Some (PJs v) => Some v
  | _ => None
  end.

Definition elems_of (items : JsVal) : list JsVal :=
  match items with JArr elems => elems | _ => [] end.

(** [items] is a list without [null] or [undefined] among its items. *)
Definition proper_list (items : JsVal) : bool :=
  match items with
  | JArr elems => forallb (fun item => negb (nullish item)) elems
  | _ => false
  end.

Definition is_count_stock_call (c : HostCall) : bool :=
  match c with CallCountStock _ => true | _ => false end.

(** The calls a render makes below the entry point: the form factory and
    [context.renderInstance]. *)
Definition is_component_call (c : HostCall) : bool :=
  is_count_stock_call c || is_render_call c.

Definition is_fetch (e : Event) : bool :=
  match e with Fetch => true | _ => false end.

(** A host without HTTP client. *)
Definition offline_host : InvenTreePluginContext :=
  {| api := None; theme_primaryColor := "blue"; locale := "en" |}.

(** What invalidation makes of an entry of the cache: the key and the
    data stay, and an entry the filter does not match stays as it is. *)
Definition invalidated_from (filter : QueryKey)
    (old new : QueryKey * QueryState) : Prop :=
  fst new = fst old /\
  q_data (snd new) = q_data (snd old) /\
  (key_prefix filter (fst old) = false -> snd new = snd old).

(** What a call of the query function sends, and what it then waits for. *)
Definition sent_by (context : InvenTreePluginContext) : list HostCall :=
  match api context with
  | Some _ => [get_next_item]
  | None => []
  end.

Definition awaited_by (context : InvenTreePluginContext) (w : World) : Pending :=
  match api context with
  | Some _ => AwaitsResponse (requests_sent w)
  | None => AwaitsNothing
  end.

(** The events that do not start a fetch: a render, the "View Item"
    action and the opening of the form. *)
Definition starts_no_fetch (e : Event) : bool :=
  match e with
  | Render => true
  | Click (navigateToItem _) => true
  | Click countStockForm_open => true
  | _ => false
  end.

(** ** What a computation does to the world *)

(** [m] only adds calls that satisfy [P] to the list of host calls. *)
Definition appends (P : HostCall -> bool) {A} (m : M A) : Prop :=
  forall w, exists l,
    calls (world_of (m w)) = calls w ++ l /\ forallb P l = true.

(** [m] leaves the query cache, and so the fetched data, as it is. *)
Definition keeps_cache {A} (m : M A) : Prop :=
  forall w, cache (world_of (m w)) = cache w.

(** * Properties *)

Section Closure.
Context {A B : Type} (P : HostCall -> bool).

Lemma appends_ret (a : A) : appends P (ret a).
Proof. intros w. exists []. simpl. now rewrite app_nil_r. Qed.

Lemma appends_throw (e : Exn) : appends P (@throw A e).
Proof. intros w. exists []. simpl. now rewrite app_nil_r. Qed.

Lemma appends_lift (r : Exn + A) : appends P (lift r).
Proof. intros w. exists []. simpl. now rewrite app_nil_r. Qed.

Lemma appends_call (c : HostCall) : P c = true -> appends P (call c).
Proof. intros Hc w. exists [c]. simpl. now rewrite Hc. Qed.

Lemma appends_bind (m : M A) (k : A -> M B) :
  appends P m -> (forall a, appends P (k a)) -> appends P (bind m k).
Proof.
  intros Hm Hk w. unfold bind, world_of.
  destruct (Hm w) as [l1 [E1 F1]]. unfold world_of in E1.
  destruct (m w) as [w1 [e | a]]; simpl in *.
  - now exists l1.
  - destruct (Hk a w1) as [l2 [E2 F2]]. unfold world_of in E2.
    exists (l1 ++ l2). rewrite E2, E1, app_assoc, forallb_app, F1, F2. now split.
Qed.

Lemma appends_mapM (f : A -> M B) (l : list A) :
  (forall a, appends P (f a)) -> appends P (mapM f l).
Proof.
  intros Hf. induction l as [| a rest IH]; simpl.
  - exists []. simpl. now rewrite app_nil_r.
  - intros w. unfold bind, world_of.
    destruct (Hf a w) as [l1 [E1 F1]]. unfold world_of in E1.
    destruct (f a w) as [w1 [e | b]]; simpl in *; [now exists l1 |].
    destruct (IH w1) as [l2 [E2 F2]]. unfold world_of in E2.
    exists (l1 ++ l2). rewrite forallb_app, F1, F2.
    destruct (mapM f rest w1) as [w2 [e | bs]]; simpl in *;
      rewrite E2, E1, app_assoc; now split.
Qed.

Lemma keeps_cache_ret (a : A) : keeps_cache (ret a).
Proof. intros w. reflexivity. Qed.

Lemma keeps_cache_throw (e : Exn) : keeps_cache (@throw A e).
Proof. intros w. reflexivity. Qed.

Lemma keeps_cache_lift (r : Exn + A) : keeps_cache (lift r).
Proof. intros w. reflexivity. Qed.

Lemma keeps_cache_bind (m : M A) (k : A -> M B) :
  keeps_cache m -> (forall a, keeps_cache (k a)) -> keeps_cache (bind m k).
Proof.
  intros Hm Hk w. unfold bind, world_of.
  specialize (Hm w). unfold world_of in Hm.
  destruct (m w) as [w1 [e | a]]; simpl in *; [assumption |].
  specialize (Hk a w1). unfold world_of in Hk. congruence.
Qed.

End Closure.

Lemma keeps_cache_mapM {A B} (f : A -> M B) (l : list A) :
  (forall a, keeps_cache (f a)) -> keeps_cache (mapM f l).
Proof.
  intros Hf. induction l as [| a rest IH]; simpl.
  - intros w. reflexivity.
  - apply keeps_cache_bind; [apply Hf |]. intros b.
    apply keeps_cache_bind; [apply IH |]. intros bs. apply keeps_cache_ret.
Qed.

Lemma keeps_cache_call (c : HostCall) : keeps_cache (call c).
Proof. intros w. reflexivity. Qed.

Lemma appends_weaken (P Q : HostCall -> bool) {A} (m : M A) :
  (forall c, P c = true -> Q c = true) -> appends P m -> appends Q m.
Proof.
  intros HPQ Hm w. destruct (Hm w) as [l [E F]]. exists l. split; [assumption |].
  rewrite forallb_forall in *. auto.
Qed.

Create HintDb world.
#[export] Hint Resolve appends_ret appends_throw appends_lift appends_call
  appends_bind appends_mapM keeps_cache_ret keeps_cache_throw keeps_cache_lift
  keeps_cache_bind keeps_cache_mapM keeps_cache_call : world.

(** ** Rows *)

Lemma get_prop_some (v : JsVal) (f : string) :
  nullish v = false -> get_prop v f = inr (get_prop_opt v f).
Proof. destruct v; simpl; intros; try discriminate; reflexivity. Qed.

Lemma add_calls_app (l1 l2 : list HostCall) (w : World) :
  add_calls l2 (add_calls l1 w) = add_calls (l1 ++ l2) w.
Proof. unfold add_calls; simpl. now rewrite app_assoc. Qed.

Lemma add_calls_nil (w : World) : add_calls [] w = w.
Proof. destruct w. unfold add_calls; simpl. now rewrite app_nil_r. Qed.

(** The row of an item that is not [null] or [undefined]. *)
Lemma RenderStockItem_run (context : InvenTreePluginContext) (item : JsVal) (w : World) :
  nullish item = false ->
  exists tr act_cell,
    RenderStockItem context item w = (add_calls (row_calls item) w, inr tr) /\
    tag tr = "Table.Tr" /\
    map children (children tr) =
      [ [NHost (Rendered (item_props item))];
        [location_cell (get_prop_opt item "location_detail")];
        [date_cell (get_prop_opt item "stocktake_date")];
        [act_cell] ].
Proof.
  intros Hn.
  unfold RenderStockItem, renderInstance, row_calls, location_cell, date_cell,
    bind, call, lift, ret.
  rewrite !(get_prop_some _ _ Hn).
  destruct (truthy (get_prop_opt item "location_detail")) eqn:El;
    destruct (truthy (get_prop_opt item "stocktake_date")) eqn:Ed;
    cbn [fst snd cache calls]; unfold add_calls; cbn [cache calls];
    rewrite <- ?app_assoc; cbn [app];
    (do 2 eexists; split; [reflexivity |]; split; reflexivity).
Qed.

Lemma renderInstance_appends (p : InstanceProps) : appends is_render_call (renderInstance p).
Proof. unfold renderInstance. auto with world. Qed.

Lemma renderInstance_keeps_cache (p : InstanceProps) : keeps_cache (renderInstance p).
Proof. unfold renderInstance. auto with world. Qed.

(** Whatever the item, rendering its row calls nothing but
    [context.renderInstance]. *)
Lemma RenderStockItem_appends (context : InvenTreePluginContext) (item : JsVal) :
  appends is_render_call (RenderStockItem context item).
Proof.
  unfold RenderStockItem.
  apply appends_bind; [apply renderInstance_appends | intros].
  apply appends_bind; [apply appends_lift | intros].
  apply appends_bind; [| intros; apply appends_bind; intros; auto with world].
  destruct (truthy _); [apply renderInstance_appends | apply appends_ret].
Qed.

Lemma RenderStockItem_keeps_cache (context : InvenTreePluginContext) (item : JsVal) :
  keeps_cache (RenderStockItem context item).
Proof.
  unfold RenderStockItem.
  apply keeps_cache_bind; [apply renderInstance_keeps_cache | intros].
  apply keeps_cache_bind; [apply keeps_cache_lift | intros].
  apply keeps_cache_bind; [| intros; apply keeps_cache_bind; intros; auto with world].
  destruct (truthy _); [apply renderInstance_keeps_cache | apply keeps_cache_ret].
Qed.

(** ** The list of rows *)

Lemma truthy_not_nullish (v : JsVal) : truthy v = true -> nullish v = false.
Proof. destruct v; simpl; intros; try discriminate; reflexivity. Qed.

Lemma RenderStockItems_no_items (context : InvenTreePluginContext) (items : JsVal) (w : World) :
  no_items items = true ->
  RenderStockItems context items w =
    (add_calls [count_stock_call items] w, inr all_up_to_date).
Proof.
  unfold no_items, RenderStockItems, bind, call, lift, ret. intros H.
  destruct (truthy items) eqn:Et; cbn [negb orb fst snd] in *.
  - rewrite (get_prop_some _ _ (truthy_not_nullish _ Et)). now rewrite H.
  - reflexivity.
Qed.

Lemma mapM_keys (elems : list JsVal) (w : World) :
  Forall (fun item => nullish item = false) elems ->
  mapM (fun item => key <- lift (get_prop item "pk") ;; ret (key, item)) elems w =
    (w, inr (map (fun item => (get_prop_opt item "pk", item)) elems)).
Proof.
  induction 1 as [| item rest Hn _ IH]; [reflexivity |].
  cbn [mapM map]. unfold bind at 1. unfold bind at 1, lift at 1.
  rewrite (get_prop_some _ _ Hn). unfold ret at 1. unfold bind at 1.
  now rewrite IH.
Qed.

Lemma mapM_rows (context : InvenTreePluginContext) (elems : list JsVal) (w : World) :
  Forall (fun item => nullish item = false) elems ->
  exists rows,
    mapM (fun '(key, item) =>
            row <- RenderStockItem context item ;;
            ret (NElem "RenderStockItem" [("key", PJs key)] [row]))
         (map (fun item => (get_prop_opt item "pk", item)) elems) w =
      (add_calls (flat_map row_calls elems) w, inr rows) /\
    map row_item rows = map Some elems.
Proof.
  intros H. revert w. induction H as [| item rest Hn _ IH]; intros w.
  - exists []. simpl. now rewrite add_calls_nil.
  - destruct (RenderStockItem_run context item w Hn)
      as (tr & act & Erun & Etag & Ecells).
    destruct (IH (add_calls (row_calls item) w)) as (rows & Erows & Eitems).
    exists (NElem "RenderStockItem" [("key", PJs (get_prop_opt item "pk"))] [tr] :: rows).
    split.
    + cbn [mapM map flat_map]. unfold bind at 1. unfold bind at 1.
      rewrite Erun. unfold ret at 1. unfold bind at 1. rewrite Erows.
      unfold ret. now rewrite add_calls_app.
    + cbn [map]. rewrite Eitems. f_equal.
      unfold row_item, row_cells. cbn [has_tag tag children]. rewrite Ecells.
      reflexivity.
Qed.

(** A list with at least one item, none of them [null] or [undefined],
    renders as the table, one row per item and in the order of the list. *)
Lemma RenderStockItems_table (context : InvenTreePluginContext)
    (elems : list JsVal) (w : World) :
  elems <> [] ->
  Forall (fun item => nullish item = false) elems ->
  exists n,
    RenderStockItems context (JArr elems) w = (add_calls (table_calls elems) w, inr n) /\
    is_item_table n = true /\
    is_alert "green" n = false /\
    map row_item (table_rows n) = map Some elems.
Proof.
  intros Hne Hall.
  destruct (mapM_rows context elems (add_calls [count_stock_call (JArr elems)] w) Hall)
    as (rows & Erows & Eitems).
  eexists. split; [| split; [| split]].
  - unfold RenderStockItems. unfold bind at 1. unfold call at 1.
    change {| cache := cache w; calls := calls w ++ [_] |}
      with (add_calls [count_stock_call (JArr elems)] w).
    cbn [truthy]. unfold bind at 1. unfold lift at 1. cbn [get_prop String.eqb].
    replace (strict_eq_zero _) with false
      by (destruct elems; [contradiction | reflexivity]).
    cbn [negb orb]. unfold bind at 1. unfold js_map.
    rewrite (mapM_keys _ _ Hall). unfold bind at 1. rewrite Erows.
    rewrite add_calls_app. unfold ret. reflexivity.
  - reflexivity.
  - reflexivity.
  - exact Eitems.
Qed.

(** What [RenderStockItems] returns, when it returns: the alert for no
    items, the table with its button otherwise. *)
Lemma RenderStockItems_result (context : InvenTreePluginContext)
    (items : JsVal) (w : World) (n : Node) :
  result_of (RenderStockItems context items w) = inr n ->
  if no_items items then n = all_up_to_date
  else is_item_table n = true /\ is_alert "green" n = false.
Proof.
  destruct (no_items items) eqn:E.
  - rewrite (RenderStockItems_no_items _ _ _ E). simpl. congruence.
  - unfold no_items in E. apply orb_false_iff in E. destruct E as [Et Ez].
    apply negb_false_iff in Et.
    unfold RenderStockItems, result_of. unfold bind at 1. unfold call at 1.
    rewrite Et. unfold bind at 1. unfold lift at 1.
    rewrite (get_prop_some _ _ (truthy_not_nullish _ Et)), Ez.
    cbn [negb orb]. unfold bind at 1.
    destruct (js_map _ _ _) as [w1 [e | elements]]; [simpl; discriminate |].
    unfold bind at 1.
    destruct (mapM _ _ _) as [w2 [e | rows]]; [simpl; discriminate |].
    unfold ret. cbn [snd]. intros [= <-]. split; reflexivity.
Qed.

Lemma js_map_appends {B} (P : HostCall -> bool) (items : JsVal) (f : JsVal -> M B) :
  (forall item, appends P (f item)) -> appends P (js_map items f).
Proof. destruct items; simpl; auto with world. Qed.

Lemma js_map_keeps_cache {B} (items : JsVal) (f : JsVal -> M B) :
  (forall item, keeps_cache (f item)) -> keeps_cache (js_map items f).
Proof. destruct items; simpl; auto with world. Qed.

(** The first thing [RenderStockItems] does to the host is to call the form
    factory; all it calls after that is [context.renderInstance]. *)
Lemma RenderStockItems_calls (context : InvenTreePluginContext) (items : JsVal) (w : World) :
  exists rest,
    calls (world_of (RenderStockItems context items w)) =
      calls w ++ count_stock_call items :: rest /\
    forallb is_render_call rest = true.
Proof.
  unfold RenderStockItems. unfold bind at 1. unfold call at 1.
  match goal with |- context [?body {| cache := _; calls := _ |}] =>
    assert (Hb : appends is_render_call body) end.
  { apply appends_bind; [destruct (truthy items); auto with world | intros len].
    destruct (_ || _); [apply appends_ret |].
    apply appends_bind.
    - apply js_map_appends. intros. auto with world.
    - intros elements. apply appends_bind; [| auto with world].
      apply appends_mapM. intros [key item].
      apply appends_bind; [apply RenderStockItem_appends | auto with world]. }
  destruct (Hb {| cache := cache w; calls := calls w ++ [count_stock_call items] |})
    as [rest [E F]].
  exists rest. split; [| exact F].
  cbn [calls] in E. rewrite <- app_assoc in E. exact E.
Qed.

Lemma RenderStockItems_keeps_cache (context : InvenTreePluginContext) (items : JsVal) :
  keeps_cache (RenderStockItems context items).
Proof.
  unfold RenderStockItems.
  apply keeps_cache_bind; [apply keeps_cache_call | intros _].
  apply keeps_cache_bind; [destruct (truthy items); auto with world | intros len].
  destruct (_ || _); [apply keeps_cache_ret |].
  apply keeps_cache_bind.
  - apply js_map_keeps_cache. intros. auto with world.
  - intros elements. apply keeps_cache_bind; [| auto with world].
    apply keeps_cache_mapM. intros [key item].
    apply keeps_cache_bind; [apply RenderStockItem_keeps_cache | auto with world].
Qed.

(** ** The widget's panels *)

Lemma panel_of_items (t : Node) :
  panel_of (NElem "RenderStockItems" [] [t]) =
    if is_alert "green" t then Some UpToDate
    else if is_item_table t then Some ItemTable
    else None.
Proof. reflexivity. Qed.

(** The panels of the widget, for a query result, when rendering returns. *)
Lemma render_dashboard_panels (context : InvenTreePluginContext)
    (q : UseQueryResult) (w : World) (n : Node) :
  result_of (render_dashboard context q w) = inr n ->
  panels n =
    panel_when (shows_loader q) Loading ++
    panel_when (shows_error q) ErrorAlert ++
    panel_when (shows_items q) (if no_items (stockItems q) then UpToDate else ItemTable).
Proof.
  unfold render_dashboard, shows_loader, shows_error, shows_items, result_of.
  unfold bind at 1.
  destruct (negb (isLoading q) && isSuccess q) eqn:Es.
  - unfold bind at 1.
    pose proof (RenderStockItems_result context (stockItems q) w) as Hr.
    unfold result_of in Hr.
    destruct (RenderStockItems context (stockItems q) w) as [w1 [e | t]];
      [simpl; discriminate |].
    specialize (Hr t eq_refl). unfold ret. cbn [snd]. intros [= <-].
    destruct (no_items (stockItems q)).
    + subst t.
      destruct (isLoading q || isFetching q);
        destruct (negb (isLoading q) && negb (isFetching q) && isError q);
        reflexivity.
    + destruct Hr as [Ht Ha].
      unfold panels. cbn [children].
      destruct (isLoading q || isFetching q);
        destruct (negb (isLoading q) && negb (isFetching q) && isError q);
        cbn [when app flat_map]; rewrite panel_of_items, Ha, Ht; reflexivity.
  - unfold ret. cbn [snd]. intros [= <-].
    destruct (isLoading q || isFetching q);
      destruct (negb (isLoading q) && negb (isFetching q) && isError q);
      reflexivity.
Qed.

Lemma render_dashboard_keeps_cache (context : InvenTreePluginContext) (q : UseQueryResult) :
  keeps_cache (render_dashboard context q).
Proof.
  unfold render_dashboard. apply keeps_cache_bind; [| auto with world].
  destruct (_ && _); [| apply keeps_cache_ret].
  apply keeps_cache_bind; [apply RenderStockItems_keeps_cache | auto with world].
Qed.

Lemma render_call_not_api (c : HostCall) : is_render_call c = true -> not_api_call c = true.
Proof. destruct c; simpl; intros; try discriminate; reflexivity. Qed.

Lemma render_dashboard_appends (context : InvenTreePluginContext) (q : UseQueryResult) :
  appends not_api_call (render_dashboard context q).
Proof.
  unfold render_dashboard. apply appends_bind; [| auto with world].
  destruct (_ && _); [| apply appends_ret].
  apply appends_bind; [| auto with world].
  intros w. destruct (RenderStockItems_calls context (stockItems q) w) as [rest [E F]].
  exists (count_stock_call (stockItems q) :: rest). split; [exact E |].
  cbn [forallb]. apply andb_true_iff. split; [reflexivity |].
  rewrite forallb_forall in *. intros c Hc.
  apply render_call_not_api. auto.
Qed.

(** Where no items are to be shown, rendering returns and calls nothing. *)
Lemma render_dashboard_without_items (context : InvenTreePluginContext)
    (q : UseQueryResult) (w : World) :
  shows_items q = false ->
  exists n, render_dashboard context q w = (w, inr n).
Proof.
  unfold shows_items, render_dashboard. intros ->. eexists. reflexivity.
Qed.

(** ** The query cache *)

Lemma key_eqb_refl (k : QueryKey) : key_eqb k k = true.
Proof. unfold key_eqb. destruct (list_eq_dec string_dec k k); congruence. Qed.

Lemma key_eqb_eq (a b : QueryKey) : key_eqb a b = true -> a = b.
Proof. unfold key_eqb. destruct (list_eq_dec string_dec a b); congruence. Qed.

Lemma find_set_query (k : QueryKey) (st : QueryState) (c : QueryCache) :
  find_query k (set_query k st c) = Some st.
Proof.
  induction c as [| [k' st'] rest IH]; simpl.
  - now rewrite key_eqb_refl.
  - destruct (key_eqb k' k) eqn:E; simpl.
    + now rewrite key_eqb_refl.
    + now rewrite E.
Qed.

Lemma find_set_query_other (k k0 : QueryKey) (st : QueryState) (c : QueryCache) :
  k0 <> k -> find_query k0 (set_query k st c) = find_query k0 c.
Proof.
  intros Hne. induction c as [| [k' st'] rest IH]; simpl.
  - destruct (key_eqb k k0) eqn:E; [apply key_eqb_eq in E; congruence | reflexivity].
  - destruct (key_eqb k' k) eqn:E; simpl.
    + apply key_eqb_eq in E. subst k'.
      destruct (key_eqb k k0) eqn:E0; [apply key_eqb_eq in E0; congruence | reflexivity].
    + destruct (key_eqb k' k0); [reflexivity | exact IH].
Qed.

(** ** Starting a fetch *)

(** Calling the query function never throws: it returns what it waits
    for, and all it calls is the request. *)
Lemma call_queryFn_run (fn : QueryFn) (w : World) :
  exists p l,
    call_queryFn fn w = (add_calls l w, inr p) /\ forallb is_get_next_item l = true.
Proof.
  destruct fn as [context]. cbn [call_queryFn]. unfold next_item_request.
  destruct (api context) as [respond |].
  - exists (AwaitsResponse (requests_sent w)), [get_next_item]. split; reflexivity.
  - exists AwaitsNothing, []. rewrite add_calls_nil. split; reflexivity.
Qed.

(** Starting a fetch keeps the data and the observer of the query; it
    never throws, and all it calls is the request of the query function. *)
Lemma start_fetch_run (fn : QueryFn) (st : QueryState) (w : World) :
  exists st' l,
    start_fetch fn st w = (add_calls l w, inr st') /\
    forallb is_get_next_item l = true /\
    q_data st' = q_data st /\ q_observer st' = q_observer st /\
    q_isInvalidated st' = q_isInvalidated st.
Proof.
  unfold start_fetch. destruct (joins_running_fetch st).
  - exists st, []. rewrite add_calls_nil. repeat split.
  - destruct (call_queryFn_run fn w) as (p & l & E & F).
    exists (fetch_started st p), l. unfold bind. rewrite E. repeat split. exact F.
Qed.

Lemma invalidate_query_run (st : QueryState) (w : World) :
  exists st' l,
    invalidate_query st w = (add_calls l w, inr st') /\
    forallb is_get_next_item l = true /\
    q_data st' = q_data st /\ q_observer st' = q_observer st /\
    q_isInvalidated st' = true.
Proof.
  unfold invalidate_query. cbn [invalidate q_observer].
  destruct (q_observer st) as [opts |] eqn:Eo.
  - destruct (enabled opts).
    + destruct (start_fetch_run (queryFn opts) (invalidate st) w)
        as (st' & l & E & F & Hd & Ho & Hi).
      exists st', l. split; [exact E |]. split; [exact F |].
      split; [exact Hd |]. split; [rewrite Ho; exact Eo | exact Hi].
    + exists (invalidate st), []. rewrite add_calls_nil. now repeat split.
  - exists (invalidate st), []. rewrite add_calls_nil. now repeat split.
Qed.

Lemma invalidate_matching_run (filter : QueryKey) (c : QueryCache) (w : World) :
  exists c' l,
    invalidate_matching filter c w = (add_calls l w, inr c') /\
    forallb is_get_next_item l = true /\
    Forall2 (invalidated_from filter) c c'.
Proof.
  revert w. induction c as [| [k st] rest IH]; intros w.
  - exists [], []. rewrite add_calls_nil. repeat split. constructor.
  - cbn [invalidate_matching]. unfold bind at 1.
    destruct (key_prefix filter k) eqn:Ek.
    + destruct (invalidate_query_run st w) as (st' & l1 & E1 & F1 & Hd & _).
      rewrite E1. unfold bind at 1.
      destruct (IH (add_calls l1 w)) as (rest' & l2 & E2 & F2 & Hrest).
      rewrite E2. exists ((k, st') :: rest'), (l1 ++ l2).
      rewrite add_calls_app, forallb_app, F1, F2. repeat split.
      constructor; [| exact Hrest].
      split; [reflexivity |]. split; [exact Hd |]. cbn [fst]. congruence.
    + unfold ret at 1. unfold bind at 1.
      destruct (IH w) as (rest' & l2 & E2 & F2 & Hrest).
      rewrite E2. exists ((k, st) :: rest'), l2. repeat split; [exact F2 |].
      constructor; [| exact Hrest]. now repeat split.
Qed.

Lemma invalidateQueries_run (filter : QueryKey) (w : World) :
  exists c' l,
    invalidateQueries filter w =
      ({| cache := c'; calls := calls w ++ l |}, inr tt) /\
    forallb is_get_next_item l = true /\
    Forall2 (invalidated_from filter) (cache w) c'.
Proof.
  destruct (invalidate_matching_run filter (cache w) w) as (c' & l & E & F & H).
  exists c', l. unfold invalidateQueries, bind. rewrite E. repeat split; assumption.
Qed.

Lemma find_invalidated_from (filter k : QueryKey) (c c' : QueryCache) (st : QueryState) :
  Forall2 (invalidated_from filter) c c' ->
  find_query k c = Some st ->
  exists st',
    find_query k c' = Some st' /\ q_data st' = q_data st /\
    (key_prefix filter k = false -> st' = st).
Proof.
  induction 1 as [| [k1 st1] [k2 st2] rest rest' [Hk [Hd Hs]] _ IH]; cbn [find_query];
    [discriminate |].
  cbn [fst snd] in *. subst k2.
  destruct (key_eqb k1 k) eqn:E; [| exact IH].
  intros [= <-]. exists st2. split; [reflexivity |]. split; [exact Hd |].
  apply key_eqb_eq in E. subst k1. exact Hs.
Qed.

Lemma invalidated_keys (filter : QueryKey) (c c' : QueryCache) :
  Forall2 (invalidated_from filter) c c' -> map fst c' = map fst c.
Proof.
  induction 1 as [| x y rest rest' [Hk _] _ IH]; [reflexivity |].
  cbn [map]. now rewrite Hk, IH.
Qed.

Lemma refetch_query_run (k : QueryKey) (w : World) :
  exists c' l,
    refetch_query k w = ({| cache := c'; calls := calls w ++ l |}, inr tt) /\
    forallb is_get_next_item l = true /\
    (forall k0 st, find_query k0 (cache w) = Some st ->
       exists st', find_query k0 c' = Some st' /\ q_data st' = q_data st /\
                   (k0 <> k -> st' = st)).
Proof.
  unfold refetch_query.
  assert (Hsame : exists c' l,
            (w, @inr Exn unit tt) = ({| cache := c'; calls := calls w ++ l |}, inr tt) /\
            forallb is_get_next_item l = true /\
            (forall k0 st, find_query k0 (cache w) = Some st ->
               exists st', find_query k0 c' = Some st' /\ q_data st' = q_data st /\
                           (k0 <> k -> st' = st))).
  { exists (cache w), []. rewrite app_nil_r. destruct w. repeat split.
    intros k0 st H. exists st. now repeat split. }
  destruct (find_query k (cache w)) as [st |] eqn:Ef; [| exact Hsame].
  destruct (q_observer st) as [opts |]; [| exact Hsame].
  destruct (start_fetch_run (queryFn opts) st w) as (st' & l & E & F & Hd & _).
  exists (set_query k st' (cache w)), l. unfold bind. rewrite E.
  split; [reflexivity |]. split; [exact F |].
  intros k0 st0 H0. cbn [add_calls cache].
  destruct (list_eq_dec string_dec k0 k) as [-> | Hne].
  - rewrite find_set_query. exists st'. split; [reflexivity |].
    split; [congruence | congruence].
  - rewrite (find_set_query_other _ _ _ _ Hne). exists st0. now repeat split.
Qed.

(** ** Fetching *)

Lemma queryFn_run (context : InvenTreePluginContext) (respond : nat -> Exn + JsVal) (w : World) :
  api context = Some respond ->
  next_item_queryFn context w = (add_calls [get_next_item] w, respond (requests_sent w)).
Proof. unfold next_item_queryFn. intros ->. reflexivity. Qed.

Lemma queryFn_appends (context : InvenTreePluginContext) :
  appends is_get_next_item (next_item_queryFn context).
Proof.
  unfold next_item_queryFn. destruct (api context) as [respond |]; [| apply appends_throw].
  intros w. exists [get_next_item]. split; reflexivity.
Qed.

Lemma queryFn_keeps_cache (context : InvenTreePluginContext) :
  keeps_cache (next_item_queryFn context).
Proof.
  unfold next_item_queryFn. destruct (api context) as [respond |]; intros w; reflexivity.
Qed.

(** A request that is rejected every time is sent once and then once more
    for every retry. *)
Lemma run_with_retry_rejected (context : InvenTreePluginContext)
    (respond : nat -> Exn + JsVal) (retries failures : nat) (w : World) :
  api context = Some respond ->
  (forall n, exists e, respond n = inl e) ->
  exists e,
    run_with_retry retries (next_item_queryFn context) failures w =
      (add_calls (repeat get_next_item (S retries)) w, (S retries + failures, inl e)).
Proof.
  intros Hapi Hrej. revert failures w.
  induction retries as [| k IH]; intros failures w; cbn [run_with_retry];
    rewrite (queryFn_run _ _ _ Hapi);
    destruct (Hrej (requests_sent w)) as [e ->].
  - exists e. reflexivity.
  - destruct (IH (S failures) (add_calls [get_next_item] w)) as [e' ->].
    exists e'. rewrite add_calls_app. f_equal. f_equal. lia.
Qed.

Lemma run_with_retry_world (P : HostCall -> bool) (fn : M JsVal)
    (retries failures : nat) (w : World) :
  appends P fn -> keeps_cache fn ->
  let w' := fst (run_with_retry retries fn failures w) in
  cache w' = cache w /\
  exists l, calls w' = calls w ++ l /\ forallb P l = true.
Proof.
  intros Ha Hk. revert failures w.
  induction retries as [| k IH]; intros failures w; cbn [run_with_retry];
    specialize (Ha w) as [l1 [E1 F1]]; specialize (Hk w) as C1;
    unfold world_of in *; destruct (fn w) as [w1 [e | d]]; cbn [fst] in *;
    try (split; [exact C1 | exists l1; now split]).
  destruct (IH (S failures) w1) as [C2 [l2 [E2 F2]]]. cbn zeta in *.
  split; [congruence |]. exists (l1 ++ l2).
  rewrite E2, E1, app_assoc, forallb_app, F1, F2. now split.
Qed.

Lemma continue_with_retry_world (P : HostCall -> bool) (fn : M JsVal)
    (retries failures : nat) (w : World) (r : Exn + JsVal) :
  appends P fn -> keeps_cache fn ->
  let w' := fst (continue_with_retry retries fn failures w r) in
  cache w' = cache w /\
  exists l, calls w' = calls w ++ l /\ forallb P l = true.
Proof.
  intros Ha Hk. destruct r as [e | d]; [destruct retries as [| k] |];
    cbn [continue_with_retry fst];
    try (split; [reflexivity | exists []; now rewrite app_nil_r]).
  now apply run_with_retry_world.
Qed.

(** * The claims *)

(** C8.  For an item whose [pk] is absent or falsy, the "View Item" action
    of its row does nothing: the host's [navigate] is not called, nothing
    else changes, and the handler returns normally. *)
Theorem view_item_without_pk_does_nothing (item : JsVal) (w : World) :
  truthy (get_prop_opt item "pk") = false ->
  run_callback (navigateToItem item) w = (w, inr tt).
Proof.
  intros H. unfold run_callback. now rewrite H.
Qed.

Lemma view_item_without_pk_does_nothing_witness :
  truthy (get_prop_opt item_without_pk "pk") = false /\
  run_callback (navigateToItem item_without_pk) empty_world = (empty_world, inr tt).
Proof.
  split; [reflexivity |].
  apply (view_item_without_pk_does_nothing item_without_pk empty_world).
  reflexivity.
Defined.

(** With a truthy [pk] the action navigates to the item's detail page. *)
Lemma view_item_navigates (item : JsVal) (w : World) :
  truthy (get_prop_opt item "pk") = true ->
  run_callback (navigateToItem item) w =
    (add_calls [CallNavigate (getDetailUrl stockitem (get_prop_opt item "pk"))] w, inr tt).
Proof.
  intros H. unfold run_callback. rewrite H.
  assert (Hn : nullish item = false) by (destruct item; simpl in *; congruence).
  unfold bind, lift. now rewrite (get_prop_some _ _ Hn).
Qed.

(** C9.  Rendering the row of an item (any value but [null] and
    [undefined]) returns a row whatever optional fields are missing.  When
    [location_detail] is absent (or otherwise falsy) the location cell is the
    text "No location" and the host renders the item only, no location; when
    [stocktake_date] is absent (or otherwise falsy) the date cell is the text
    "Never". *)
Theorem row_is_total_with_placeholders
    (context : InvenTreePluginContext) (item : JsVal) (w : World) :
  nullish item = false ->
  exists row,
    result_of (RenderStockItem context item w) = inr row /\
    (truthy (get_prop_opt item "location_detail") = false ->
       nth 1 (map children (children row)) [] = [no_location] /\
       calls (world_of (RenderStockItem context item w)) =
         calls w ++ [CallRenderInstance (item_props item)]) /\
    (truthy (get_prop_opt item "stocktake_date") = false ->
       nth 2 (map children (children row)) [] = [never]).
Proof.
  intros Hn.
  destruct (RenderStockItem_run context item w Hn) as (tr & act & Erun & _ & Ecells).
  exists tr. rewrite Erun, Ecells. cbn [result_of world_of fst snd nth].
  split; [reflexivity |]. split.
  - intros H. unfold location_cell, row_calls. rewrite H. split; reflexivity.
  - intros H. unfold date_cell. now rewrite H.
Qed.

Lemma row_is_total_with_placeholders_witness :
  nullish uncounted_item = false /\
  exists row,
    result_of (RenderStockItem (serving two_items) uncounted_item empty_world) = inr row /\
    nth 1 (map children (children row)) [] = [no_location] /\
    nth 2 (map children (children row)) [] = [never].
Proof.
  split; [reflexivity |].
  destruct (row_is_total_with_placeholders (serving two_items) uncounted_item
              empty_world eq_refl) as (row & E & Hloc & Hdate).
  exists row. split; [exact E |]. split.
  - apply Hloc. reflexivity.
  - apply Hdate. reflexivity.
Defined.

(** C10.  For every fetched list the count-stock form is built by the
    host's factory with the whole list as its [items]; the call is the first
    thing [RenderStockItems] does, so it is made for the empty list too
    (which then shows the alert and calls nothing else), and it is the only
    call to the factory.  The list it is given is the [items] of the fetched
    body, as the widget passes it on after a successful fetch. *)
Theorem count_stock_form_gets_whole_list
    (context : InvenTreePluginContext) (elems : list JsVal) (w : World) :
  (exists rest,
     calls (world_of (RenderStockItems context (JArr elems) w)) =
       calls w ++
       CallCountStock {| cs_items := JArr elems; cs_model := stockitem;
                         cs_refresh := refresh |} :: rest /\
     forallb is_render_call rest = true /\
     (elems = [] ->
        rest = [] /\
        result_of (RenderStockItems context (JArr elems) w) = inr all_up_to_date)) /\
  (forall q,
     isLoading q = false -> isSuccess q = true ->
     get_prop_opt (data q) "items" = JArr elems ->
     world_of (render_dashboard context q w) =
       world_of (RenderStockItems context (JArr elems) w)).
Proof.
  split.
  - destruct elems as [| item elems'].
    + exists []. rewrite RenderStockItems_no_items by reflexivity.
      repeat split; reflexivity.
    + destruct (RenderStockItems_calls context (JArr (item :: elems')) w) as [rest [E F]].
      exists rest. split; [exact E |]. split; [exact F |]. discriminate.
  - intros q Hl Hs Hitems. unfold render_dashboard, stockItems.
    rewrite Hl, Hs, Hitems. cbn [negb andb nullish_coalesce nullish].
    unfold bind at 1. unfold bind at 1.
    destruct (RenderStockItems context (JArr elems) w) as [w1 [e | n]]; reflexivity.
Qed.

(** C4.  A fetched list with at least one item (none of them [null] or
    [undefined]) is shown as a table with one row per item, the rows in the
    order of the list: nothing is sorted, left out or paged. *)
Theorem rows_follow_fetched_order
    (context : InvenTreePluginContext) (elems : list JsVal) (w : World) :
  elems <> [] ->
  Forall (fun item => nullish item = false) elems ->
  exists n,
    result_of (RenderStockItems context (JArr elems) w) = inr n /\
    map row_item (table_rows n) = map Some elems /\
    List.length (table_rows n) = List.length elems.
Proof.
  intros Hne Hall.
  destruct (RenderStockItems_table context elems w Hne Hall) as (n & E & _ & _ & Hrows).
  exists n. rewrite E. split; [reflexivity |]. split; [exact Hrows |].
  rewrite <- (length_map row_item), Hrows. apply length_map.
Qed.

Lemma rows_follow_fetched_order_witness :
  [uncounted_item; counted_item; uncounted_item] <> [] /\
  Forall (fun item => nullish item = false)
         [uncounted_item; counted_item; uncounted_item] /\
  exists n,
    result_of (RenderStockItems (serving two_items)
                 (JArr [uncounted_item; counted_item; uncounted_item]) empty_world) = inr n /\
    map row_item (table_rows n) = [Some uncounted_item; Some counted_item; Some uncounted_item] /\
    List.length (table_rows n) = 3.
Proof.
  assert (Hne : [uncounted_item; counted_item; uncounted_item] <> []) by discriminate.
  assert (Hall : Forall (fun item => nullish item = false)
                        [uncounted_item; counted_item; uncounted_item])
    by (repeat constructor).
  split; [exact Hne |]. split; [exact Hall |].
  exact (rows_follow_fetched_order (serving two_items) _ empty_world Hne Hall).
Defined.

(** C6.  After a successful fetch whose [items] is the empty list, or whose
    body has no [items] ([undefined] or [null], also when the body itself is
    [null] or no object), the widget shows the alert "All up to date!" and
    neither table nor button. *)
Theorem empty_list_shows_all_up_to_date
    (context : InvenTreePluginContext) (q : UseQueryResult) (w : World) :
  isLoading q = false ->
  isSuccess q = true ->
  get_prop_opt (data q) "items" = JArr [] \/
  nullish (get_prop_opt (data q) "items") = true ->
  exists n,
    result_of (render_dashboard context q w) = inr n /\
    In (NElem "RenderStockItems" [] [all_up_to_date]) (children n) /\
    prop "title" (props all_up_to_date) = Some (PTr "All up to date!") /\
    In UpToDate (panels n) /\
    ~ In ItemTable (panels n).
Proof.
  intros Hl Hs Hitems.
  assert (Hstock : stockItems q = JArr []).
  { unfold stockItems, nullish_coalesce.
    destruct Hitems as [-> | ->]; reflexivity. }
  assert (Hrun : exists n, render_dashboard context q w =
            (add_calls [count_stock_call (JArr [])] w, inr n) /\
            In (NElem "RenderStockItems" [] [all_up_to_date]) (children n)).
  { unfold render_dashboard. rewrite Hl, Hs, Hstock. cbn [negb andb orb].
    unfold bind at 1. unfold bind at 1.
    rewrite RenderStockItems_no_items by reflexivity.
    unfold ret. eexists. split; [reflexivity |].
    cbn [children]. apply in_or_app. right. apply in_or_app. right.
    apply in_or_app. right. left. reflexivity. }
  destruct Hrun as (n & E & Hin).
  exists n. split; [now rewrite E |]. split; [exact Hin |]. split; [reflexivity |].
  assert (Hp := render_dashboard_panels context q w n). rewrite E in Hp.
  specialize (Hp eq_refl). rewrite Hp.
  unfold shows_loader, shows_error, shows_items. rewrite Hl, Hs, Hstock.
  cbn [negb andb orb no_items].
  destruct (isFetching q); destruct (isError q); simpl; intuition discriminate.
Qed.

Lemma empty_list_shows_all_up_to_date_witness :
  let q := observe {| q_data := JObj [("items", JArr [])]; q_status := success;
                      q_fetchStatus := idle; q_isInvalidated := false;
                      q_failureCount := 0;
                      q_observer := Some (itemQuery_options (serving (JObj [("items", JArr [])]))); q_promise := None |} in
  isLoading q = false /\ isSuccess q = true /\
  get_prop_opt (data q) "items" = JArr [] /\
  exists n,
    result_of (render_dashboard (serving (JObj [("items", JArr [])])) q empty_world) = inr n /\
    In UpToDate (panels n) /\ ~ In ItemTable (panels n).
Proof.
  intros q. split; [reflexivity |]. split; [reflexivity |]. split; [reflexivity |].
  destruct (empty_list_shows_all_up_to_date (serving (JObj [("items", JArr [])])) q
              empty_world eq_refl eq_refl (or_introl eq_refl))
    as (n & E & _ & _ & Hin & Hnot).
  exists n. auto.
Defined.

(** ** Fetches that fail *)

Lemma response_rejected (context : InvenTreePluginContext) (respond : nat -> Exn + JsVal)
    (p : Pending) :
  api context = Some respond ->
  (forall n, exists e, respond n = inl e) ->
  exists e, next_item_response context p = inl e.
Proof.
  intros Hapi Hrej. unfold next_item_response. rewrite Hapi.
  destruct p as [n |]; [apply Hrej | eexists; reflexivity].
Qed.

(** After a first rejection the request is sent once for every retry. *)
Lemma continue_rejected (context : InvenTreePluginContext) (respond : nat -> Exn + JsVal)
    (retries failures : nat) (w : World) (e0 : Exn) :
  api context = Some respond ->
  (forall n, exists e, respond n = inl e) ->
  exists e,
    continue_with_retry retries (next_item_queryFn context) failures w (inl e0) =
      (add_calls (repeat get_next_item retries) w, (S retries + failures, inl e)).
Proof.
  intros Hapi Hrej. destruct retries as [| k]; cbn [continue_with_retry].
  - exists e0. now rewrite add_calls_nil.
  - destruct (run_with_retry_rejected context respond k (S failures) w Hapi Hrej)
      as [e ->].
    exists e. f_equal. f_equal. lia.
Qed.

Lemma fetch_rejected (context : InvenTreePluginContext) (respond : nat -> Exn + JsVal)
    (w : World) (st : QueryState) :
  api context = Some respond ->
  (forall n, exists e, respond n = inl e) ->
  find_query ["next-item"] (cache w) = Some st ->
  q_fetchStatus st = fetching ->
  exists e,
    handle context Fetch w =
      (with_cache
         (set_query ["next-item"] (settle st (S LIBRARY_DEFAULT_RETRY) (inl e)) (cache w))
         (add_calls
            (repeat get_next_item
               (match q_promise st with
                | None => S LIBRARY_DEFAULT_RETRY
                | Some _ => LIBRARY_DEFAULT_RETRY
                end)) w),
       inr tt).
Proof.
  intros Hapi Hrej Hfind Hf.
  unfold handle, fetch_query.
  change (queryKey (itemQuery_options context)) with ["next-item"].
  rewrite Hfind, Hf. cbn [is_fetching].
  change (resolve_retry queryClient (itemQuery_options context)) with LIBRARY_DEFAULT_RETRY.
  change (run_queryFn (queryFn (itemQuery_options context)))
    with (next_item_queryFn context).
  change (await_queryFn (queryFn (itemQuery_options context)))
    with (next_item_response context).
  destruct (q_promise st) as [p |].
  - destruct (response_rejected context respond p Hapi Hrej) as [e0 ->].
    destruct (continue_rejected context respond LIBRARY_DEFAULT_RETRY 0 w e0 Hapi Hrej)
      as [e ->].
    exists e. rewrite Nat.add_0_r. reflexivity.
  - destruct (run_with_retry_rejected context respond LIBRARY_DEFAULT_RETRY 0 w Hapi Hrej)
      as [e ->].
    exists e. rewrite Nat.add_0_r. reflexivity.
Qed.

(** The widget in the state a failed fetch leaves. *)
Lemma render_after_failure (context : InvenTreePluginContext) (w : World)
    (st : QueryState) (failures : nat) (e : Exn) :
  find_query ["next-item"] (cache w) = Some (settle st failures (inl e)) ->
  exists n,
    RollingStocktakeDashboardItem context w = (w, inr n) /\
    panels n = [ErrorAlert] /\
    In error_alert (children n).
Proof.
  intros Hfind. unfold RollingStocktakeDashboardItem, bind, useQuery.
  change (queryKey (itemQuery_options context)) with ["next-item"].
  rewrite Hfind. eexists. split; [reflexivity |]. split; [reflexivity |].
  cbn. auto.
Qed.

(** C2, as the code has it.  The widget sets no retry option, neither on
    the query nor on the client, so the library's default applies: a request
    that keeps being rejected is sent once and then retried, the default
    number of times, before the fetch counts as failed (when the fetch was
    started by a click or by the completed form, the first of these sends was
    made then, and the retries are what is left).  The failure stays
    inside the query client (the fetch itself returns normally); the widget
    then renders, without throwing, the error alert, which is the same
    whatever the error was, and no other panel. *)
Theorem failed_fetch_ends_in_static_alert
    (context : InvenTreePluginContext) (respond : nat -> Exn + JsVal)
    (w : World) (st : QueryState) :
  api context = Some respond ->
  (forall n, exists e, respond n = inl e) ->
  find_query ["next-item"] (cache w) = Some st ->
  q_fetchStatus st = fetching ->
  let w' := world_of (handle context Fetch w) in
  retry (itemQuery_options context) = None /\
  default_retry queryClient = None /\
  calls w' =
    calls w ++
    repeat get_next_item
      (match q_promise st with
       | None => S LIBRARY_DEFAULT_RETRY
       | Some _ => LIBRARY_DEFAULT_RETRY
       end) /\
  result_of (handle context Fetch w) = inr tt /\
  exists n,
    RollingStocktakeDashboardItem context w' = (w', inr n) /\
    panels n = [ErrorAlert] /\
    In error_alert (children n).
Proof.
  intros Hapi Hrej Hfind Hf w'.
  destruct (fetch_rejected context respond w st Hapi Hrej Hfind Hf) as [e E].
  subst w'. rewrite E. cbn [world_of result_of fst snd].
  split; [reflexivity |]. split; [reflexivity |]. split; [reflexivity |].
  split; [reflexivity |].
  apply (render_after_failure context _ st (S LIBRARY_DEFAULT_RETRY) e).
  cbn [with_cache cache]. apply find_set_query.
Qed.

Lemma failed_fetch_ends_in_static_alert_witness :
  let w := world_of (handle rejecting Render empty_world) in
  let w' := world_of (handle rejecting Fetch w) in
  find_query ["next-item"] (cache w) = Some (initial_query (itemQuery_options rejecting)) /\
  calls w' = repeat get_next_item 4 /\
  exists n,
    RollingStocktakeDashboardItem rejecting w' = (w', inr n) /\
    panels n = [ErrorAlert] /\
    In error_alert (children n).
Proof.
  intros w w'. split; [reflexivity |].
  destruct (failed_fetch_ends_in_static_alert rejecting
              (fun _ => inl (NetworkError "Request failed with status code 500"))
              w (initial_query (itemQuery_options rejecting)) eq_refl
              (fun n => ex_intro _ _ eq_refl) eq_refl eq_refl)
    as (_ & _ & Hcalls & _ & Hrender).
  split; [exact Hcalls | exact Hrender].
Defined.

(** C2, as stated, fails: mounting the widget on a host whose server rejects
    the request sends the request four times, not once. *)
Lemma rejected_request_is_retried :
  calls (mount_and_fetch rejecting empty_world) = repeat get_next_item 4 /\
  requests_sent (mount_and_fetch rejecting empty_world) <> 1.
Proof. split; [reflexivity | discriminate]. Qed.

(** C1, as the code has it.  While the query is first loaded the loader is
    the only panel; a settled query (no fetch in flight) shows exactly one
    panel, the error alert after a failure and the alert or the table after a
    success; while a failed query is fetched again the loader is the only
    panel; while a successful query is fetched again the loader is shown
    together with the alert or the table; a query that has no result yet
    and is not being fetched shows no panel.  At no time is more than one of
    error alert, "All up to date!" alert and table shown. *)
Theorem panels_by_fetch_status
    (context : InvenTreePluginContext) (q : UseQueryResult) (w : World) (n : Node) :
  isError q && isSuccess q = false ->
  result_of (render_dashboard context q w) = inr n ->
  let settled := if no_items (stockItems q) then UpToDate else ItemTable in
  (isLoading q = true -> panels n = [Loading]) /\
  (isLoading q = false -> isFetching q = false -> isError q = true ->
     panels n = [ErrorAlert]) /\
  (isLoading q = false -> isFetching q = false -> isSuccess q = true ->
     panels n = [settled]) /\
  (isFetching q = true -> isError q = true -> panels n = [Loading]) /\
  (isLoading q = false -> isFetching q = true -> isSuccess q = true ->
     panels n = [Loading; settled]) /\
  (isLoading q = false -> isFetching q = false -> isError q = false ->
     isSuccess q = false -> panels n = []) /\
  List.length (filter (fun p => negb (is_loading_panel p)) (panels n)) <= 1.
Proof.
  intros Hex Hres settled.
  rewrite (render_dashboard_panels context q w n Hres).
  unfold shows_loader, shows_error, shows_items. fold settled.
  destruct (isLoading q), (isFetching q), (isError q), (isSuccess q);
    try discriminate Hex; cbn [negb andb orb panel_when app];
    repeat split; intros; try discriminate; try reflexivity;
    destruct settled; simpl; lia.
Qed.

Lemma panels_by_fetch_status_witness :
  let q := observe {| q_data := two_items; q_status := success;
                      q_fetchStatus := idle; q_isInvalidated := false;
                      q_failureCount := 0;
                      q_observer := Some (itemQuery_options (serving two_items)); q_promise := None |} in
  isError q && isSuccess q = false /\
  exists n,
    result_of (render_dashboard (serving two_items) q empty_world) = inr n /\
    panels n = [ItemTable].
Proof.
  intros q. split; [reflexivity |].
  eexists. split; [reflexivity |].
  destruct (panels_by_fetch_status (serving two_items) q empty_world _ eq_refl eq_refl)
    as (_ & _ & H & _).
  apply H; reflexivity.
Defined.

(** C1, as stated, fails: when the user clicks the refresh icon of a widget
    that shows a table, the loader and the table are both rendered. *)
Lemma refetch_shows_loader_and_table :
  exists n,
    result_of (RollingStocktakeDashboardItem (serving two_items)
                 (session (serving two_items) [Render; Fetch; Click refetch] empty_world))
      = inr n /\
    panels n = [Loading; ItemTable] /\
    List.length (panels n) <> 1.
Proof. eexists. split; [reflexivity |]. split; [reflexivity | discriminate]. Qed.

(** ** Refreshing *)

Lemma call_queryFn_next (context : InvenTreePluginContext) (w : World) :
  call_queryFn (fetchNextItem context) w =
    (add_calls (sent_by context) w, inr (awaited_by context w)).
Proof.
  cbn [call_queryFn]. unfold next_item_request, sent_by, awaited_by.
  destruct (api context); [reflexivity |]. now rewrite add_calls_nil.
Qed.

(** A fetch that is started, and does not join a running one, calls the
    query function within the call: the request is sent at once. *)
Lemma start_fetch_next (context : InvenTreePluginContext) (st : QueryState) (w : World) :
  joins_running_fetch st = false ->
  start_fetch (fetchNextItem context) st w =
    (add_calls (sent_by context) w, inr (fetch_started st (awaited_by context w))).
Proof.
  intros Hj. unfold start_fetch. rewrite Hj. unfold bind.
  now rewrite call_queryFn_next.
Qed.

Lemma with_data_never_joins (st : QueryState) :
  is_undefined (q_data st) = false -> joins_running_fetch st = false.
Proof.
  intros H. unfold joins_running_fetch. rewrite H.
  now rewrite andb_false_r.
Qed.

Lemma key_prefix_refl (k : QueryKey) : key_prefix k k = true.
Proof.
  induction k as [| x k IH]; [reflexivity |].
  cbn [key_prefix]. now rewrite String.eqb_refl, IH.
Qed.

Lemma find_query_focus (k : QueryKey) (st : QueryState) (before after : QueryCache) :
  Forall (fun entry => key_prefix k (fst entry) = false) before ->
  find_query k (before ++ (k, st) :: after) = Some st.
Proof.
  induction 1 as [| [k1 st1] rest Hk _ IH]; cbn [app find_query].
  - now rewrite key_eqb_refl.
  - destruct (key_eqb k1 k) eqn:E; [| exact IH].
    apply key_eqb_eq in E. subst k1. cbn [fst] in Hk.
    now rewrite key_prefix_refl in Hk.
Qed.

(** Invalidation passes over the queries its filter does not match. *)
Lemma invalidate_matching_skip (filter : QueryKey) (c : QueryCache) (w : World) :
  Forall (fun entry => key_prefix filter (fst entry) = false) c ->
  invalidate_matching filter c w = (w, inr c).
Proof.
  induction 1 as [| [k st] rest Hk _ IH]; [reflexivity |].
  cbn [invalidate_matching]. cbn [fst] in Hk. rewrite Hk.
  unfold bind at 1. unfold ret at 1. unfold bind at 1. now rewrite IH.
Qed.

Lemma invalidate_matching_focus (filter k : QueryKey) (st st' : QueryState)
    (before after : QueryCache) (w w1 : World) :
  Forall (fun entry => key_prefix filter (fst entry) = false) before ->
  Forall (fun entry => key_prefix filter (fst entry) = false) after ->
  key_prefix filter k = true ->
  invalidate_query st w = (w1, inr st') ->
  invalidate_matching filter (before ++ (k, st) :: after) w =
    (w1, inr (before ++ (k, st') :: after)).
Proof.
  intros Hb Ha Hk Hq. induction Hb as [| [k1 st1] rest Hk1 _ IH]; cbn [app].
  - cbn [invalidate_matching]. rewrite Hk. unfold bind at 1. rewrite Hq.
    unfold bind at 1. now rewrite (invalidate_matching_skip filter after w1 Ha).
  - cbn [invalidate_matching]. cbn [fst] in Hk1. rewrite Hk1.
    unfold bind at 1. unfold ret at 1. unfold bind at 1. now rewrite IH.
Qed.

Lemma skipn_length_app {A} (l1 l2 : list A) : skipn (List.length l1) (l1 ++ l2) = l2.
Proof. induction l1 as [| a l1 IH]; [reflexivity | exact IH]. Qed.

(** The props of the one call of the form factory that a render of the
    list makes. *)
Lemma factory_props_of_render (context : InvenTreePluginContext) (items : JsVal)
    (w0 : World) (form : CountStockProps) :
  In (CallCountStock form)
     (skipn (List.length (calls w0))
            (calls (world_of (RenderStockItems context items w0)))) ->
  form = count_stock_props items.
Proof.
  destruct (RenderStockItems_calls context items w0) as [rest [E F]].
  rewrite E, skipn_length_app. intros [H | H].
  - unfold count_stock_call in H. congruence.
  - rewrite forallb_forall in F. specialize (F _ H). discriminate F.
Qed.

(** The answer to the request of a fetch that was started arrives: nothing
    more is sent, and the answer is the new data. *)
Lemma fetch_answered (context : InvenTreePluginContext) (respond : nat -> Exn + JsVal)
    (w : World) (st : QueryState) (n : nat) (body : JsVal) :
  api context = Some respond ->
  find_query ["next-item"] (cache w) = Some st ->
  q_fetchStatus st = fetching ->
  q_promise st = Some (AwaitsResponse n) ->
  respond n = inr body ->
  is_undefined body = false ->
  handle context Fetch w =
    (with_cache
       (set_query ["next-item"]
          {| q_data := body; q_status := success; q_fetchStatus := idle;
             q_isInvalidated := false; q_failureCount := 0;
             q_observer := q_observer st; q_promise := None |}
          (cache w)) w,
     inr tt).
Proof.
  intros Hapi Hfind Hf Hp Hbody Hdef. unfold handle, fetch_query.
  change (queryKey (itemQuery_options context)) with ["next-item"].
  rewrite Hfind, Hf, Hp. cbn [is_fetching].
  change (await_queryFn (queryFn (itemQuery_options context)))
    with (next_item_response context).
  unfold next_item_response. rewrite Hapi, Hbody.
  cbn [continue_with_retry settle]. now rewrite Hdef.
Qed.

(** C3.  When the count-stock form completes, the [refresh] that
    [RenderStockItems] handed to the form factory runs.  It invalidates the
    query under the key ["next-item"], the key the widget fetches under,
    and nothing else: the query of the mounted widget is marked invalidated
    and its fetch is started, which sends the request at once (when there is
    an HTTP client); its data and status stay; the queries that are not
    under the key stay as they are, and nothing else is called on the host.
    When the answer arrives the list is the answered one, and no further
    request has been sent. *)
Theorem count_completion_invalidates_next_item
    (context : InvenTreePluginContext) (items : JsVal) (w0 : World)
    (form : CountStockProps) (w : World) (st : QueryState)
    (before after : QueryCache) :
  In (CallCountStock form)
     (skipn (List.length (calls w0))
            (calls (world_of (RenderStockItems context items w0)))) ->
  cache w = before ++ (["next-item"], st) :: after ->
  Forall (fun entry => key_prefix ["next-item"] (fst entry) = false) (before ++ after) ->
  q_observer st = Some (itemQuery_options context) ->
  is_undefined (q_data st) = false ->
  let w' := world_of (handle context (FormCompleted form) w) in
  handle context (FormCompleted form) w =
    ({| cache :=
          before ++
          (["next-item"],
           {| q_data := q_data st; q_status := q_status st; q_fetchStatus := fetching;
              q_isInvalidated := true; q_failureCount := 0;
              q_observer := q_observer st;
              q_promise :=
                Some (match api context with
                      | Some _ => AwaitsResponse (requests_sent w)
                      | None => AwaitsNothing
                      end) |}) :: after;
        calls :=
          calls w ++
          match api context with
          | Some _ => [CallApi GET "/plugin/rolling-stocktake/next/"]
          | None => []
          end |},
     inr tt) /\
  queryKey (itemQuery_options context) = ["next-item"] /\
  (forall respond body,
     api context = Some respond ->
     respond (requests_sent w) = inr body ->
     is_undefined body = false ->
     calls (world_of (handle context Fetch w')) = calls w' /\
     exists st2,
       find_query ["next-item"] (cache (world_of (handle context Fetch w'))) = Some st2 /\
       q_data st2 = body /\ q_status st2 = success /\ q_fetchStatus st2 = idle /\
       q_isInvalidated st2 = false).
Proof.
  intros Hform Hcache Hother Hobs Hdata w'.
  apply factory_props_of_render in Hform. subst form.
  apply Forall_app in Hother. destruct Hother as [Hb Ha].
  assert (Hq : invalidate_query st w =
                 (add_calls (sent_by context) w,
                  inr (fetch_started (invalidate st) (awaited_by context w)))).
  { unfold invalidate_query. cbn [invalidate q_observer]. rewrite Hobs.
    cbn [itemQuery_options enabled queryFn].
    apply start_fetch_next, with_data_never_joins. exact Hdata. }
  assert (Hrun : handle context (FormCompleted (count_stock_props items)) w =
                   (with_cache
                      (before ++
                       (["next-item"],
                        fetch_started (invalidate st) (awaited_by context w)) :: after)
                      (add_calls (sent_by context) w),
                    inr tt)).
  { cbn [handle count_stock_props cs_refresh run_callback].
    unfold invalidateQueries, bind.
    change (cache w = before ++ (@pair QueryKey QueryState ["next-item"] st) :: after)
      in Hcache.
    rewrite Hcache.
    now rewrite (invalidate_matching_focus ["next-item"] ["next-item"] _ _ _ _ _ _
                   Hb Ha eq_refl Hq). }
  subst w'. rewrite Hrun. cbn [world_of fst].
  split; [| split; [reflexivity |]].
  - unfold with_cache, add_calls, fetch_started, invalidate, sent_by, awaited_by.
    cbn [q_data q_status q_isInvalidated q_observer calls].
    rewrite Hdata. destruct (api context); reflexivity.
  - intros respond body Hapi Hbody Hdef.
    rewrite (fetch_answered context respond _
               (fetch_started (invalidate st) (awaited_by context w))
               (requests_sent w) body Hapi).
    + cbn [world_of fst with_cache cache calls]. split; [reflexivity |].
      eexists. split; [apply find_set_query |]. repeat split.
    + cbn [with_cache cache]. apply find_query_focus. exact Hb.
    + reflexivity.
    + unfold awaited_by. now rewrite Hapi.
    + exact Hbody.
    + exact Hdef.
Qed.

Lemma count_completion_invalidates_next_item_witness :
  let context :=
    {| api := Some (fun n => match n with
                             | 0 => inr two_items
                             | _ => inr (JObj [("items", JArr [counted_item])])
                             end);
       theme_primaryColor := "blue"; locale := "en" |} in
  let w0 := mount_and_fetch context empty_world in
  let w := world_of (RenderStockItems context (JArr [uncounted_item; counted_item]) w0) in
  let form := {| cs_items := JArr [uncounted_item; counted_item];
                 cs_model := stockitem; cs_refresh := refresh |} in
  let w' := world_of (handle context (FormCompleted form) w) in
  In (CallCountStock form) (skipn (List.length (calls w0)) (calls w)) /\
  requests_sent w = 1 /\
  calls w' = calls w ++ [CallApi GET "/plugin/rolling-stocktake/next/"] /\
  calls (world_of (handle context Fetch w')) = calls w' /\
  exists st2,
    find_query ["next-item"] (cache (world_of (handle context Fetch w'))) = Some st2 /\
    q_data st2 = JObj [("items", JArr [counted_item])] /\ q_status st2 = success.
Proof.
  intros context w0 w form w'.
  assert (Hform : In (CallCountStock form) (skipn (List.length (calls w0)) (calls w)))
    by (left; reflexivity).
  split; [exact Hform |]. split; [reflexivity |].
  destruct (count_completion_invalidates_next_item context
              (JArr [uncounted_item; counted_item]) w0 form w
              {| q_data := two_items; q_status := success; q_fetchStatus := idle;
                 q_isInvalidated := false; q_failureCount := 0;
                 q_observer := Some (itemQuery_options context); q_promise := None |}
              [] [] Hform eq_refl (Forall_nil _) eq_refl eq_refl)
    as (Hrun & _ & Hfetch).
  split; [unfold w'; rewrite Hrun; reflexivity |].
  destruct (Hfetch _ (JObj [("items", JArr [counted_item])]) eq_refl eq_refl eq_refl)
    as (Hc & st2 & Hf & Hd & Hs & _).
  split; [exact Hc |]. exists st2. split; [exact Hf |]. split; assumption.
Defined.

(** ** Requests *)

Lemma useQuery_appends (P : HostCall -> bool) (opts : UseQueryOptions) :
  appends P (useQuery opts).
Proof.
  intros w. exists []. unfold useQuery.
  destruct (find_query _ _); cbn [world_of fst with_cache calls forallb];
    now rewrite app_nil_r.
Qed.

Lemma not_api_request_ok (c : HostCall) : not_api_call c = true -> request_ok c = true.
Proof. unfold request_ok. now intros ->. Qed.

Lemma get_next_item_request_ok (c : HostCall) :
  is_get_next_item c = true -> request_ok c = true.
Proof. unfold request_ok. intros ->. apply orb_true_r. Qed.

Lemma get_next_items_request_ok (l : list HostCall) :
  forallb is_get_next_item l = true -> forallb request_ok l = true.
Proof.
  rewrite !forallb_forall. intros H c Hc. apply get_next_item_request_ok. auto.
Qed.

(** The "View Item" action and the opening of the form send nothing. *)
Lemma navigateToItem_appends (item : JsVal) :
  appends not_api_call (run_callback (navigateToItem item)).
Proof.
  cbn [run_callback]. destruct (truthy _); [| apply appends_ret].
  apply appends_bind; [apply appends_lift |].
  intros pk. now apply appends_call.
Qed.

Lemma run_callback_appends (cb : Callback) : appends request_ok (run_callback cb).
Proof.
  destruct cb as [item | | |].
  - apply (appends_weaken not_api_call); [apply not_api_request_ok |].
    apply navigateToItem_appends.
  - intros w. cbn [run_callback].
    destruct (invalidateQueries_run ["next-item"] w) as (c' & l & E & F & _).
    exists l. rewrite E. split; [reflexivity | now apply get_next_items_request_ok].
  - intros w. cbn [run_callback].
    destruct (refetch_query_run ["next-item"] w) as (c' & l & E & F & _).
    exists l. rewrite E. split; [reflexivity | now apply get_next_items_request_ok].
  - now apply appends_call.
Qed.

Lemma fetch_query_appends (context : InvenTreePluginContext) :
  appends is_get_next_item (fetch_query queryClient (itemQuery_options context)).
Proof.
  intros w. unfold fetch_query.
  destruct (find_query _ _) as [st |];
    [| exists []; cbn; now rewrite app_nil_r].
  destruct (is_fetching _); [| exists []; cbn; now rewrite app_nil_r].
  change (run_queryFn (queryFn (itemQuery_options context)))
    with (next_item_queryFn context).
  destruct (q_promise st) as [p |].
  - destruct (continue_with_retry_world is_get_next_item (next_item_queryFn context)
                (resolve_retry queryClient (itemQuery_options context)) 0 w
                (await_queryFn (queryFn (itemQuery_options context)) p)
                (queryFn_appends context) (queryFn_keeps_cache context))
      as [_ [l [E F]]].
    destruct (continue_with_retry _ _ _ _ _) as [w1 [failures r]]. cbn [fst] in E.
    exists l. split; [exact E | exact F].
  - destruct (run_with_retry_world is_get_next_item (next_item_queryFn context)
                (resolve_retry queryClient (itemQuery_options context)) 0 w
                (queryFn_appends context) (queryFn_keeps_cache context))
      as [_ [l [E F]]].
    destruct (run_with_retry _ _ _ _) as [w1 [failures r]]. cbn [fst] in E.
    exists l. split; [exact E | exact F].
Qed.

(** Whatever happens to the widget, the requests it sends are GETs of
    [NEXT_ITEM_URL]. *)
Lemma handle_appends (context : InvenTreePluginContext) (e : Event) :
  appends request_ok (handle context e).
Proof.
  destruct e as [| | cb | form]; cbn [handle].
  - apply appends_bind; [| auto with world].
    unfold RollingStocktakeDashboardItem.
    apply appends_bind; [apply useQuery_appends |]. intros q.
    apply (appends_weaken not_api_call); [apply not_api_request_ok |].
    apply render_dashboard_appends.
  - apply (appends_weaken is_get_next_item); [apply get_next_item_request_ok |].
    apply fetch_query_appends.
  - apply run_callback_appends.
  - apply run_callback_appends.
Qed.

Lemma session_requests (context : InvenTreePluginContext) (es : list Event) (w : World) :
  exists l,
    calls (session context es w) = calls w ++ l /\ forallb request_ok l = true.
Proof.
  revert w. induction es as [| e rest IH]; intros w; cbn [session].
  - exists []. now rewrite app_nil_r.
  - destruct (handle_appends context e w) as [l1 [E1 F1]].
    destruct (IH (world_of (handle context e w))) as [l2 [E2 F2]].
    exists (l1 ++ l2). rewrite E2, E1, app_assoc, forallb_app, F1, F2. now split.
Qed.

Lemma request_ok_get (method : HttpMethod) (url : string) :
  request_ok (CallApi method url) = true -> method = GET /\ url = NEXT_ITEM_URL.
Proof.
  unfold request_ok. cbn [not_api_call is_api_call negb orb is_get_next_item].
  destruct method; try discriminate. intros H. split; [reflexivity |].
  now apply String.eqb_eq.
Qed.

(** ** Fetches that succeed *)

Lemma run_with_retry_first_try (fn : M JsVal) (retries failures : nat)
    (w w1 : World) (r : Exn + JsVal) (d : JsVal) :
  fn w = (w1, r) -> r = inr d ->
  run_with_retry retries fn failures w = (w1, (failures, inr d)).
Proof. intros E ->. destruct retries; cbn [run_with_retry]; now rewrite E. Qed.

Lemma mount_and_fetch_success (context : InvenTreePluginContext)
    (respond : nat -> Exn + JsVal) (body : JsVal) (w : World) :
  api context = Some respond ->
  find_query ["next-item"] (cache w) = None ->
  respond (requests_sent w) = inr body ->
  is_undefined body = false ->
  find_query ["next-item"] (cache (mount_and_fetch context w)) =
    Some {| q_data := body; q_status := success; q_fetchStatus := idle;
            q_isInvalidated := false; q_failureCount := 0;
            q_observer := Some (itemQuery_options context); q_promise := None |} /\
  calls (mount_and_fetch context w) = calls w ++ [get_next_item].
Proof.
  intros Hapi Hnone Hbody Hdef.
  unfold mount_and_fetch. cbn [session].
  assert (Hmount : world_of (handle context Render w) =
            with_cache (set_query ["next-item"]
                          (initial_query (itemQuery_options context)) (cache w)) w).
  { unfold handle, RollingStocktakeDashboardItem. unfold bind at 1. unfold bind at 1.
    unfold useQuery. change (queryKey (itemQuery_options context)) with ["next-item"].
    rewrite Hnone.
    destruct (render_dashboard_without_items context
                (observe (initial_query (itemQuery_options context)))
                (with_cache (set_query ["next-item"]
                               (initial_query (itemQuery_options context)) (cache w)) w)
                eq_refl) as [n ->].
    reflexivity. }
  rewrite Hmount. unfold handle, fetch_query.
  change (queryKey (itemQuery_options context)) with ["next-item"].
  cbn [with_cache cache]. rewrite find_set_query.
  change (is_fetching (q_fetchStatus (initial_query (itemQuery_options context))))
    with true. cbn iota.
  change (q_promise (initial_query (itemQuery_options context))) with (@None Pending).
  cbn iota.
  change (run_queryFn (queryFn (itemQuery_options context)))
    with (next_item_queryFn context).
  match goal with |- context [run_with_retry ?k _ ?f ?w1] =>
    rewrite (run_with_retry_first_try _ k f w1 _ _ body
               (queryFn_run context respond w1 Hapi) Hbody)
  end.
  cbn [world_of fst settle]. rewrite Hdef.
  cbn [with_cache cache add_calls calls]. split; [apply find_set_query | reflexivity].
Qed.

(** The widget over a settled, successful query with a proper list. *)
Lemma render_success_table (context : InvenTreePluginContext) (w : World)
    (st : QueryState) (elems : list JsVal) :
  find_query ["next-item"] (cache w) = Some st ->
  q_status st = success ->
  q_fetchStatus st = idle ->
  get_prop_opt (q_data st) "items" = JArr elems ->
  elems <> [] ->
  Forall (fun item => nullish item = false) elems ->
  exists n,
    result_of (RollingStocktakeDashboardItem context w) = inr n /\
    displayed_items n = map Some elems /\
    panels n = [ItemTable].
Proof.
  intros Hfind Hs Hf Hitems Hne Hall.
  unfold RollingStocktakeDashboardItem. unfold bind at 1. unfold useQuery.
  change (queryKey (itemQuery_options context)) with ["next-item"].
  rewrite Hfind.
  destruct (RenderStockItems_table context elems w Hne Hall) as (t & Et & Ht & Ha & Hrows).
  unfold render_dashboard, stockItems, observe. cbn [data isLoading isSuccess isFetching isError].
  rewrite Hs, Hf, Hitems. cbn [is_fetching is_pending is_success is_error negb andb orb
                               nullish_coalesce nullish when app].
  unfold bind at 1. unfold bind at 1. rewrite Et. unfold ret.
  eexists. split; [reflexivity |]. split.
  - unfold displayed_items. cbn [children find]. exact Hrows.
  - unfold panels. cbn [children flat_map]. rewrite panel_of_items, Ha, Ht. reflexivity.
Qed.

(** C5.  Every request the widget sends, whatever happens to it (renders,
    fetches with their retries, clicks, completed forms) and whatever the
    host answers, is a GET of "/plugin/rolling-stocktake/next/".  Mounting
    the widget sends this request once when it is answered; the answered body
    is then the data of the query, the list the widget works with is the
    [items] of that body (the empty list when [items] is [undefined] or
    [null]), and when [items] is a list (with at least one item, none [null]
    or [undefined]) the items the widget shows are those of the list. *)
Theorem only_request_is_get_of_next_item (context : InvenTreePluginContext) :
  (forall es w0 method url,
     In (CallApi method url) (calls (session context es w0)) ->
     In (CallApi method url) (calls w0) \/
     (method = GET /\ url = "/plugin/rolling-stocktake/next/")) /\
  (forall respond body w,
     api context = Some respond ->
     find_query ["next-item"] (cache w) = None ->
     respond (requests_sent w) = inr body ->
     is_undefined body = false ->
     calls (mount_and_fetch context w) =
       calls w ++ [CallApi GET "/plugin/rolling-stocktake/next/"] /\
     exists st,
       find_query ["next-item"] (cache (mount_and_fetch context w)) = Some st /\
       q_data st = body /\
       stockItems (observe st) =
         nullish_coalesce (get_prop_opt body "items") (JArr []) /\
       (forall elems,
          get_prop_opt body "items" = JArr elems ->
          elems <> [] ->
          Forall (fun item => nullish item = false) elems ->
          exists n,
            result_of (RollingStocktakeDashboardItem context
                         (mount_and_fetch context w)) = inr n /\
            displayed_items n = map Some elems)).
Proof.
  split.
  - intros es w0 method url Hin.
    destruct (session_requests context es w0) as [l [E F]].
    rewrite E in Hin. apply in_app_or in Hin. destruct Hin as [Hin | Hin]; [now left |].
    right. rewrite forallb_forall in F. apply (request_ok_get method url), F, Hin.
  - intros respond body w Hapi Hnone Hbody Hdef.
    destruct (mount_and_fetch_success context respond body w Hapi Hnone Hbody Hdef)
      as [Hfind Hcalls].
    split; [exact Hcalls |].
    eexists. split; [exact Hfind |]. split; [reflexivity |]. split; [reflexivity |].
    intros elems Hitems Hne Hall.
    destruct (render_success_table context (mount_and_fetch context w) _ elems
                Hfind eq_refl eq_refl Hitems Hne Hall) as (n & E & Hshown & _).
    exists n. split; assumption.
Qed.

Lemma only_request_is_get_of_next_item_witness :
  find_query ["next-item"] (cache empty_world) = None /\
  get_prop_opt two_items "items" = JArr [uncounted_item; counted_item] /\
  calls (mount_and_fetch (serving two_items) empty_world) =
    [CallApi GET "/plugin/rolling-stocktake/next/"] /\
  (exists n,
     result_of (RollingStocktakeDashboardItem (serving two_items)
                  (mount_and_fetch (serving two_items) empty_world)) = inr n /\
     displayed_items n = [Some uncounted_item; Some counted_item]) /\
  (forall method url,
     In (CallApi method url)
        (calls (session rejecting [Render; Fetch; Click refetch; Fetch] empty_world)) ->
     method = GET /\ url = "/plugin/rolling-stocktake/next/").
Proof.
  split; [reflexivity |]. split; [reflexivity |].
  assert (Hne : [uncounted_item; counted_item] <> []) by discriminate.
  assert (Hall : Forall (fun item => nullish item = false) [uncounted_item; counted_item])
    by (repeat constructor).
  destruct (only_request_is_get_of_next_item (serving two_items)) as [_ Hmount].
  destruct (Hmount (fun _ => inr two_items) two_items empty_world
              eq_refl eq_refl eq_refl eq_refl) as (Hcalls & st & _ & _ & _ & Hshown).
  split; [exact Hcalls |]. split; [exact (Hshown _ eq_refl Hne Hall) |].
  intros method url Hin.
  destruct (only_request_is_get_of_next_item rejecting) as [Hall_requests _].
  destruct (Hall_requests _ empty_world method url Hin) as [[] | H]. exact H.
Defined.

(** C7.  Rendering a row, rendering the list, rendering the widget for a
    query result, the "View Item" action and opening the count-stock form all
    leave the query cache, where the fetched items live, exactly as it was:
    no field of any item is written.  What the widget itself makes of an item
    depends on its [pk], [location_detail] and [stocktake_date] only: two
    items that agree on these get the same location and date cells and the
    same navigation; beyond that the item is handed to the host as it is. *)
Theorem widget_leaves_items_unchanged (context : InvenTreePluginContext) (w : World) :
  (forall item, cache (world_of (RenderStockItem context item w)) = cache w) /\
  (forall items, cache (world_of (RenderStockItems context items w)) = cache w) /\
  (forall q, cache (world_of (render_dashboard context q w)) = cache w) /\
  (forall item, cache (world_of (run_callback (navigateToItem item) w)) = cache w) /\
  cache (world_of (run_callback countStockForm_open w)) = cache w /\
  (forall item,
     nullish item = false ->
     calls (world_of (RenderStockItem context item w)) = calls w ++ row_calls item) /\
  (forall a b,
     nullish a = false -> nullish b = false ->
     (forall f, In f ["pk"; "location_detail"; "stocktake_date"] ->
                get_prop_opt a f = get_prop_opt b f) ->
     exists ra rb,
       result_of (RenderStockItem context a w) = inr ra /\
       result_of (RenderStockItem context b w) = inr rb /\
       nth 1 (map children (children ra)) [] = nth 1 (map children (children rb)) [] /\
       nth 2 (map children (children ra)) [] = nth 2 (map children (children rb)) [] /\
       calls (world_of (run_callback (navigateToItem a) w)) =
         calls (world_of (run_callback (navigateToItem b) w))).
Proof.
  split; [intros; apply RenderStockItem_keeps_cache |].
  split; [intros; apply RenderStockItems_keeps_cache |].
  split; [intros; apply render_dashboard_keeps_cache |].
  split; [| split; [reflexivity | split]].
  - intros item. unfold run_callback.
    destruct (truthy _); [| reflexivity].
    unfold bind, lift. destruct (get_prop item "pk"); reflexivity.
  - intros item Hn.
    destruct (RenderStockItem_run context item w Hn) as (tr & act & -> & _).
    reflexivity.
  - intros a b Ha Hb Hagree.
    destruct (RenderStockItem_run context a w Ha) as (ra & acta & Ea & _ & Ca).
    destruct (RenderStockItem_run context b w Hb) as (rb & actb & Eb & _ & Cb).
    exists ra, rb. rewrite Ea, Eb, Ca, Cb. cbn [result_of snd nth].
    rewrite (Hagree "location_detail"), (Hagree "stocktake_date") by (simpl; auto).
    repeat split.
    unfold run_callback. rewrite (Hagree "pk") by (simpl; auto).
    destruct (truthy _); [| reflexivity].
    unfold bind, lift. rewrite (get_prop_some _ _ Ha), (get_prop_some _ _ Hb).
    rewrite (Hagree "pk") by (simpl; auto). reflexivity.
Qed.

(** ** Inputs outside the data model *)

(** A list with a [null] among its items: the key of the row cannot be
    read, and the list is not rendered.  The form factory has been called. *)
Example null_item_throws :
  RenderStockItems (serving two_items) (JArr [counted_item; JNull]) empty_world =
    (add_calls [count_stock_call (JArr [counted_item; JNull])] empty_world,
     inl (TypeError "Cannot read properties of null")).
Proof. reflexivity. Qed.

(** A body whose [items] is not a list. *)
Example items_not_a_list_throws :
  result_of
    (render_dashboard (serving (JObj [("items", JNum 5)]))
       (observe {| q_data := JObj [("items", JNum 5)]; q_status := success;
                   q_fetchStatus := idle; q_isInvalidated := false;
                   q_failureCount := 0;
                   q_observer := Some (itemQuery_options (serving (JObj [("items", JNum 5)]))); q_promise := None |})
       empty_world) =
    inl (TypeError "items.map is not a function").
Proof. reflexivity. Qed.

(** A host without HTTP client: the query function throws without sending
    anything, and the widget ends in the error alert all the same. *)
Example no_http_client :
  let context := {| api := None; theme_primaryColor := "blue"; locale := "en" |} in
  let w := mount_and_fetch context empty_world in
  calls w = [] /\
  option_map panels
    (match result_of (RollingStocktakeDashboardItem context w) with
     | inr n => Some n
     | inl _ => None
     end) = Some [ErrorAlert].
Proof. split; reflexivity. Qed.

(** A query that waits for the network before its first fetch (paused)
    shows no panel. *)
Example paused_query_shows_nothing :
  option_map panels
    (match result_of
             (render_dashboard (serving two_items)
                (observe {| q_data := JUndefined; q_status := pending;
                            q_fetchStatus := paused; q_isInvalidated := false;
                            q_failureCount := 0;
                            q_observer := Some (itemQuery_options (serving two_items)); q_promise := None |})
                empty_world) with
     | inr n => Some n
     | inl _ => None
     end) = Some [].
Proof. reflexivity. Qed.

(** After a completed count the list is fetched again and the widget shows
    what the server now answers. *)
Example refresh_after_count :
  let context :=
    {| api := Some (fun n => match n with
                             | 0 => inr two_items
                             | _ => inr (JObj [("items", JArr [counted_item])])
                             end);
       theme_primaryColor := "blue"; locale := "en" |} in
  let w := session context
             [Render; Fetch; Render; Click countStockForm_open;
              FormCompleted (count_stock_props (JArr [uncounted_item; counted_item]));
              Render; Fetch]
             empty_world in
  requests_sent w = 2 /\
  match result_of (RollingStocktakeDashboardItem context w) with
  | inr n => displayed_items n = [Some counted_item] /\ panels n = [ItemTable]
  | inl _ => False
  end.
Proof. split; [reflexivity |]. split; reflexivity. Qed.

(** * Further properties of the components *)

(** ** Rows, continued *)

(** X2.  For an item with a truthy [location_detail] the host renders the
    item and then its location, as a stock location and with
    [show_location: false], and the location cell holds what the host
    returned; a truthy [stocktake_date] is shown as it is. *)
Theorem row_shows_location_and_date
    (context : InvenTreePluginContext) (item : JsVal) (w : World) :
  nullish item = false ->
  exists row,
    result_of (RenderStockItem context item w) = inr row /\
    (truthy (get_prop_opt item "location_detail") = true ->
       nth 1 (map children (children row)) [] =
         [NHost (Rendered {| instance := get_prop_opt item "location_detail";
                             model := stocklocation;
                             extra := [("show_location", JBool false)] |})] /\
       calls (world_of (RenderStockItem context item w)) =
         calls w ++
         [CallRenderInstance {| instance := item; model := stockitem; extra := [] |};
          CallRenderInstance {| instance := get_prop_opt item "location_detail";
                                model := stocklocation;
                                extra := [("show_location", JBool false)] |}]) /\
    (truthy (get_prop_opt item "stocktake_date") = true ->
       nth 2 (map children (children row)) [] =
         [NElem "Text" [("size", PStr "sm")] [NJs (get_prop_opt item "stocktake_date")]]).
Proof.
  intros Hn.
  destruct (RenderStockItem_run context item w Hn) as (tr & act & Erun & _ & Ecells).
  exists tr. rewrite Erun, Ecells. cbn [result_of world_of fst snd nth].
  split; [reflexivity |]. split.
  - intros H. unfold location_cell, row_calls. rewrite H. split; reflexivity.
  - intros H. unfold date_cell. now rewrite H.
Qed.

Lemma row_shows_location_and_date_witness :
  nullish counted_item = false /\
  exists row,
    result_of (RenderStockItem (serving two_items) counted_item empty_world) = inr row /\
    nth 1 (map children (children row)) [] =
      [NHost (Rendered {| instance := shelf; model := stocklocation;
                          extra := [("show_location", JBool false)] |})] /\
    nth 2 (map children (children row)) [] =
      [NElem "Text" [("size", PStr "sm")] [NJs (JStr "2024-01-01")]].
Proof.
  split; [reflexivity |].
  destruct (row_shows_location_and_date (serving two_items) counted_item
              empty_world eq_refl) as (row & E & Hloc & Hdate).
  exists row. split; [exact E |]. split.
  - apply Hloc. reflexivity.
  - apply Hdate. reflexivity.
Defined.

(** The one action of a row is "View Item", closed over the row's item. *)
Lemma RenderStockItem_handlers (context : InvenTreePluginContext) (item : JsVal) (w : World) :
  nullish item = false ->
  exists tr,
    RenderStockItem context item w = (add_calls (row_calls item) w, inr tr) /\
    handlers tr = [navigateToItem item].
Proof.
  intros Hn.
  unfold RenderStockItem, renderInstance, row_calls, bind, call, lift, ret.
  rewrite !(get_prop_some _ _ Hn).
  destruct (truthy (get_prop_opt item "location_detail")) eqn:El;
    destruct (truthy (get_prop_opt item "stocktake_date")) eqn:Ed;
    cbn [fst snd cache calls]; unfold add_calls; cbn [cache calls];
    rewrite <- ?app_assoc; cbn [app];
    (eexists; split; reflexivity).
Qed.

Lemma mapM_rows_details (context : InvenTreePluginContext) (elems : list JsVal) (w : World) :
  Forall (fun item => nullish item = false) elems ->
  exists rows,
    mapM (fun '(key, item) =>
            row <- RenderStockItem context item ;;
            ret (NElem "RenderStockItem" [("key", PJs key)] [row]))
         (map (fun item => (get_prop_opt item "pk", item)) elems) w =
      (add_calls (flat_map row_calls elems) w, inr rows) /\
    map row_key rows = map (fun item => Some (get_prop_opt item "pk")) elems /\
    flat_map handlers rows = map navigateToItem elems.
Proof.
  intros H. revert w. induction H as [| item rest Hn _ IH]; intros w.
  - exists []. simpl. now rewrite add_calls_nil.
  - destruct (RenderStockItem_handlers context item w Hn) as (tr & Erun & Hh).
    destruct (IH (add_calls (row_calls item) w)) as (rows & Erows & Ekeys & Ehs).
    exists (NElem "RenderStockItem" [("key", PJs (get_prop_opt item "pk"))] [tr] :: rows).
    split; [| split].
    + cbn [mapM map flat_map]. unfold bind at 1. unfold bind at 1.
      rewrite Erun. unfold ret at 1. unfold bind at 1. rewrite Erows.
      unfold ret. now rewrite add_calls_app.
    + cbn [map]. rewrite Ekeys. reflexivity.
    + cbn [flat_map map]. rewrite Ehs.
      cbn [handlers prop_handlers flat_map snd app]. rewrite Hh. reflexivity.
Qed.

(** ** The list of rows, continued *)

Lemma RenderStockItems_table_details (context : InvenTreePluginContext)
    (elems : list JsVal) (w : World) :
  elems <> [] ->
  Forall (fun item => nullish item = false) elems ->
  exists n,
    RenderStockItems context (JArr elems) w = (add_calls (table_calls elems) w, inr n) /\
    map row_key (table_rows n) = map (fun item => Some (get_prop_opt item "pk")) elems /\
    handlers n = map navigateToItem elems ++ [countStockForm_open].
Proof.
  intros Hne Hall.
  destruct (mapM_rows_details context elems
              (add_calls [count_stock_call (JArr elems)] w) Hall)
    as (rows & Erows & Ekeys & Ehs).
  eexists. split; [| split].
  - unfold RenderStockItems. unfold bind at 1. unfold call at 1.
    change {| cache := cache w; calls := calls w ++ [_] |}
      with (add_calls [count_stock_call (JArr elems)] w).
    cbn [truthy]. unfold bind at 1. unfold lift at 1. cbn [get_prop String.eqb].
    replace (strict_eq_zero _) with false
      by (destruct elems; [contradiction | reflexivity]).
    cbn [negb orb]. unfold bind at 1. unfold js_map.
    rewrite (mapM_keys _ _ Hall). unfold bind at 1. rewrite Erows.
    rewrite add_calls_app. unfold ret. reflexivity.
  - exact Ekeys.
  - cbn [handlers prop_handlers flat_map snd app]. rewrite Ehs.
    now rewrite !app_nil_r.
Qed.

Lemma mapM_keys_fail (elems : list JsVal) (w : World) :
  Exists (fun item => nullish item = true) elems ->
  exists msg,
    mapM (fun item => key <- lift (get_prop item "pk") ;; ret (key, item)) elems w =
      (w, inl (TypeError msg)).
Proof.
  induction elems as [| item rest IH]; intros Hex; [inversion Hex |].
  cbn [mapM]. unfold bind at 1. unfold bind at 1, lift at 1.
  destruct (nullish item) eqn:En.
  - destruct item; try discriminate En; eexists; reflexivity.
  - rewrite (get_prop_some _ _ En). unfold ret at 1. unfold bind at 1.
    assert (Hrest : Exists (fun item => nullish item = true) rest)
      by (inversion Hex; [congruence | assumption]).
    destruct (IH Hrest) as [msg ->]. now exists msg.
Qed.

Lemma forallb_proper (elems : list JsVal) :
  forallb (fun item => negb (nullish item)) elems = true <->
  Forall (fun item => nullish item = false) elems.
Proof.
  rewrite forallb_forall, Forall_forall.
  split; intros H x Hx; specialize (H x Hx); now destruct (nullish x).
Qed.

Lemma not_proper_exists (elems : list JsVal) :
  forallb (fun item => negb (nullish item)) elems = false ->
  Exists (fun item => nullish item = true) elems.
Proof.
  induction elems as [| item rest IH]; cbn [forallb]; [discriminate |].
  destruct (nullish item) eqn:En; cbn [negb andb].
  - intros _. now left.
  - intros H. right. auto.
Qed.

(** When the list cannot be rendered, a [TypeError] is thrown after the call
    of the form factory and before anything else is asked of the host. *)
Lemma RenderStockItems_throws (context : InvenTreePluginContext) (items : JsVal) (w : World) :
  no_items items = false ->
  proper_list items = false ->
  exists msg,
    RenderStockItems context items w =
      (add_calls [count_stock_call items] w, inl (TypeError msg)).
Proof.
  intros Hno Hp. unfold no_items in Hno. apply orb_false_iff in Hno.
  destruct Hno as [Et Ez]. apply negb_false_iff in Et.
  unfold RenderStockItems. unfold bind at 1. unfold call at 1.
  change {| cache := cache w; calls := calls w ++ [_] |}
    with (add_calls [count_stock_call items] w).
  rewrite Et. unfold bind at 1. unfold lift at 1.
  rewrite (get_prop_some _ _ (truthy_not_nullish _ Et)), Ez.
  cbn [negb orb]. unfold bind at 1.
  destruct items as [| | b | z | s | elems | fields];
    try (eexists; reflexivity).
  cbn [js_map]. cbn [proper_list] in Hp.
  destruct (mapM_keys_fail elems (add_calls [count_stock_call (JArr elems)] w)
              (not_proper_exists _ Hp)) as [msg ->].
  now exists msg.
Qed.

Lemma RenderStockItems_returns (context : InvenTreePluginContext) (items : JsVal) (w : World) :
  no_items items = true \/ proper_list items = true ->
  exists n, result_of (RenderStockItems context items w) = inr n.
Proof.
  intros [Hno | Hp].
  - exists all_up_to_date. now rewrite RenderStockItems_no_items.
  - destruct items as [| | b | z | s | elems | fields]; try discriminate Hp.
    cbn [proper_list] in Hp. apply forallb_proper in Hp.
    destruct elems as [| item rest].
    + exists all_up_to_date. now rewrite RenderStockItems_no_items.
    + destruct (RenderStockItems_table context (item :: rest) w) as (n & E & _);
        [discriminate | exact Hp |].
      exists n. now rewrite E.
Qed.

(** X3.  For a list with at least one item, none of them [null] or
    [undefined], the host is called in this order: the form factory with
    the list, then for every item of the list, in its order, [renderInstance]
    for the item and, when its [location_detail] is truthy, [renderInstance]
    for the location. *)
Theorem table_host_calls
    (context : InvenTreePluginContext) (elems : list JsVal) (w : World) :
  elems <> [] ->
  Forall (fun item => nullish item = false) elems ->
  calls (world_of (RenderStockItems context (JArr elems) w)) =
    calls w ++
    CallCountStock {| cs_items := JArr elems; cs_model := stockitem;
                      cs_refresh := refresh |}
    :: flat_map
         (fun item =>
            CallRenderInstance {| instance := item; model := stockitem; extra := [] |}
            :: (if truthy (get_prop_opt item "location_detail")
                then [CallRenderInstance
                        {| instance := get_prop_opt item "location_detail";
                           model := stocklocation;
                           extra := [("show_location", JBool false)] |}]
                else []))
         elems.
Proof.
  intros Hne Hall.
  destruct (RenderStockItems_table context elems w Hne Hall) as (n & E & _).
  rewrite E. reflexivity.
Qed.

Lemma table_host_calls_witness :
  [uncounted_item; counted_item] <> [] /\
  Forall (fun item => nullish item = false) [uncounted_item; counted_item] /\
  calls (world_of (RenderStockItems (serving two_items)
                     (JArr [uncounted_item; counted_item]) empty_world)) =
    [ CallCountStock {| cs_items := JArr [uncounted_item; counted_item];
                        cs_model := stockitem; cs_refresh := refresh |};
      CallRenderInstance {| instance := uncounted_item; model := stockitem; extra := [] |};
      CallRenderInstance {| instance := counted_item; model := stockitem; extra := [] |};
      CallRenderInstance {| instance := shelf; model := stocklocation;
                            extra := [("show_location", JBool false)] |} ].
Proof.
  assert (Hne : [uncounted_item; counted_item] <> []) by discriminate.
  assert (Hall : Forall (fun item => nullish item = false) [uncounted_item; counted_item])
    by (repeat constructor).
  split; [exact Hne |]. split; [exact Hall |].
  exact (table_host_calls (serving two_items) _ empty_world Hne Hall).
Defined.

(** X4.  The rows of the table carry as React keys the [pk] of their items,
    in the order of the list: an item without [pk] gets the key [undefined],
    and items with equal [pk] get equal keys. *)
Theorem row_keys_are_pks
    (context : InvenTreePluginContext) (elems : list JsVal) (w : World) :
  elems <> [] ->
  Forall (fun item => nullish item = false) elems ->
  exists n,
    result_of (RenderStockItems context (JArr elems) w) = inr n /\
    map row_key (table_rows n) = map (fun item => Some (get_prop_opt item "pk")) elems.
Proof.
  intros Hne Hall.
  destruct (RenderStockItems_table_details context elems w Hne Hall) as (n & E & Hk & _).
  exists n. rewrite E. split; [reflexivity | exact Hk].
Qed.

Lemma row_keys_are_pks_witness :
  [counted_item; item_without_pk; counted_item] <> [] /\
  Forall (fun item => nullish item = false) [counted_item; item_without_pk; counted_item] /\
  exists n,
    result_of (RenderStockItems (serving two_items)
                 (JArr [counted_item; item_without_pk; counted_item]) empty_world) = inr n /\
    map row_key (table_rows n) = [Some (JNum 7); Some JUndefined; Some (JNum 7)].
Proof.
  assert (Hne : [counted_item; item_without_pk; counted_item] <> []) by discriminate.
  assert (Hall : Forall (fun item => nullish item = false)
                        [counted_item; item_without_pk; counted_item])
    by (repeat constructor).
  split; [exact Hne |]. split; [exact Hall |].
  exact (row_keys_are_pks (serving two_items) _ empty_world Hne Hall).
Defined.

(** X5.  [RenderStockItems] returns normally exactly when the test of line
    111 holds for [items] (they are falsy or their [length] is 0) or [items]
    is a list without [null] or [undefined] among its items.  For everything
    else (a number, a non-empty string, an object, a list with a [null] in
    it) it throws. *)
Theorem list_renders_iff
    (context : InvenTreePluginContext) (items : JsVal) (w : World) :
  (exists n, result_of (RenderStockItems context items w) = inr n) <->
  no_items items = true \/ proper_list items = true.
Proof.
  split.
  - intros [n Hn].
    destruct (no_items items) eqn:Eno; [now left |]. right.
    destruct (proper_list items) eqn:Ep; [reflexivity |].
    destruct (RenderStockItems_throws context items w Eno Ep) as [msg E].
    rewrite E in Hn. discriminate.
  - apply RenderStockItems_returns.
Qed.

(** X6.  When [RenderStockItems] throws, it throws a [TypeError], and it does
    so after calling the form factory and before any row is rendered: the
    factory call is the only call the host has received, and the cache is
    as before. *)
Theorem list_throws_after_factory
    (context : InvenTreePluginContext) (items : JsVal) (w : World) (e : Exn) :
  result_of (RenderStockItems context items w) = inl e ->
  (exists msg, e = TypeError msg) /\
  world_of (RenderStockItems context items w) =
    {| cache := cache w;
       calls := calls w ++
                [CallCountStock {| cs_items := js_or items (JArr []);
                                   cs_model := stockitem;
                                   cs_refresh := refresh |}] |}.
Proof.
  intros He.
  destruct (no_items items) eqn:Eno.
  { rewrite RenderStockItems_no_items in He by assumption. discriminate. }
  destruct (proper_list items) eqn:Ep.
  { assert (H : exists n, result_of (RenderStockItems context items w) = inr n)
      by (apply RenderStockItems_returns; now right).
    destruct H as [n Hn]. congruence. }
  destruct (RenderStockItems_throws context items w Eno Ep) as [msg E].
  rewrite E in *. cbn [result_of world_of fst snd] in *.
  split; [exists msg; congruence | reflexivity].
Qed.

Lemma list_throws_after_factory_witness :
  result_of (RenderStockItems (serving two_items) (JArr [counted_item; JNull]) empty_world) =
    inl (TypeError "Cannot read properties of null") /\
  calls (world_of (RenderStockItems (serving two_items)
                     (JArr [counted_item; JNull]) empty_world)) =
    [CallCountStock {| cs_items := JArr [counted_item; JNull];
                       cs_model := stockitem; cs_refresh := refresh |}].
Proof.
  split; [reflexivity |].
  destruct (list_throws_after_factory (serving two_items) (JArr [counted_item; JNull])
              empty_world (TypeError "Cannot read properties of null") eq_refl)
    as [_ ->].
  reflexivity.
Defined.

(** X7.  [RenderStockItems] accepts [items] that are missing or falsy
    ([undefined], [null], [false], [0], the empty string): the form factory
    is then given the empty list and the alert "All up to date!" is
    returned. *)
Theorem falsy_items_show_alert
    (context : InvenTreePluginContext) (items : JsVal) (w : World) :
  truthy items = false ->
  RenderStockItems context items w =
    ({| cache := cache w;
        calls := calls w ++
                 [CallCountStock {| cs_items := JArr []; cs_model := stockitem;
                                    cs_refresh := refresh |}] |},
     inr all_up_to_date).
Proof.
  intros Ht.
  rewrite RenderStockItems_no_items by (unfold no_items; now rewrite Ht).
  unfold add_calls, count_stock_call, count_stock_props, js_or. now rewrite Ht.
Qed.

Lemma falsy_items_show_alert_witness :
  truthy JNull = false /\
  RenderStockItems (serving two_items) JNull empty_world =
    ({| cache := [];
        calls := [CallCountStock {| cs_items := JArr []; cs_model := stockitem;
                                    cs_refresh := refresh |}] |},
     inr all_up_to_date).
Proof.
  split; [reflexivity |].
  exact (falsy_items_show_alert (serving two_items) JNull empty_world eq_refl).
Defined.

(** ** The widget's actions *)

Lemma no_items_false_nonempty (elems : list JsVal) :
  no_items (JArr elems) = false -> elems <> [].
Proof. destruct elems; [discriminate | discriminate]. Qed.

(** X8.  The clickable actions of the rendered widget are, in document
    order: the refresh icon, in every state; and, only when the table is
    shown, one "View Item" action per item of the list, each bound to its own
    item, followed by the "Count Stock" button that opens the form. *)
Theorem widget_actions
    (context : InvenTreePluginContext) (q : UseQueryResult) (w : World) (n : Node) :
  result_of (render_dashboard context q w) = inr n ->
  handlers n =
    refetch ::
    (if negb (isLoading q) && isSuccess q && negb (no_items (stockItems q))
     then map navigateToItem (elems_of (stockItems q)) ++ [countStockForm_open]
     else []).
Proof.
  unfold render_dashboard, result_of. unfold bind at 1.
  destruct (negb (isLoading q) && isSuccess q) eqn:Es; cbn [andb].
  - unfold bind at 1.
    destruct (no_items (stockItems q)) eqn:Eno; cbn [negb].
    + rewrite RenderStockItems_no_items by assumption.
      unfold ret. cbn [snd]. intros [= <-].
      destruct (isLoading q || isFetching q);
        destruct (negb (isLoading q) && negb (isFetching q) && isError q);
        reflexivity.
    + destruct (proper_list (stockItems q)) eqn:Ep.
      * destruct (stockItems q) as [| | b | z | s | elems | fields];
          try discriminate Ep.
        cbn [proper_list] in Ep. apply forallb_proper in Ep.
        destruct (RenderStockItems_table_details context elems w
                    (no_items_false_nonempty _ Eno) Ep) as (t & -> & _ & Hh).
        unfold ret. cbn [snd elems_of]. intros [= <-].
        destruct (isLoading q || isFetching q);
          destruct (negb (isLoading q) && negb (isFetching q) && isError q);
          cbn [when app handlers prop_handlers flat_map snd];
          rewrite Hh, ?app_nil_r; reflexivity.
      * destruct (RenderStockItems_throws context (stockItems q) w Eno Ep) as [msg ->].
        cbn [snd]. discriminate.
  - unfold ret. cbn [snd]. intros [= <-].
    destruct (isLoading q || isFetching q);
      destruct (negb (isLoading q) && negb (isFetching q) && isError q);
      reflexivity.
Qed.

Lemma widget_actions_witness :
  let q := observe {| q_data := two_items; q_status := success;
                      q_fetchStatus := fetching; q_isInvalidated := false;
                      q_failureCount := 0;
                      q_observer := Some (itemQuery_options (serving two_items)); q_promise := None |} in
  exists n,
    result_of (render_dashboard (serving two_items) q empty_world) = inr n /\
    handlers n =
      [refetch; navigateToItem uncounted_item; navigateToItem counted_item;
       countStockForm_open].
Proof.
  intros q. eexists. split; [reflexivity |].
  exact (widget_actions (serving two_items) q empty_world _ eq_refl).
Defined.

(** ** What the events of a session change *)

Lemma world_of_then_ret {A} (m : M A) (w : World) :
  world_of ((m ;;; ret tt) w) = world_of (m w).
Proof. unfold bind, world_of. destruct (m w) as [w1 [e | a]]; reflexivity. Qed.

(** Rendering the widget registers its query when it is not in the cache,
    and leaves the cache alone when it is. *)
Lemma RollingStocktakeDashboardItem_cache (context : InvenTreePluginContext) (w : World) :
  cache (world_of (RollingStocktakeDashboardItem context w)) =
    match find_query ["next-item"] (cache w) with
    | Some _ => cache w
    | None => set_query ["next-item"] (initial_query (itemQuery_options context)) (cache w)
    end.
Proof.
  unfold RollingStocktakeDashboardItem. unfold bind at 1. unfold useQuery.
  change (queryKey (itemQuery_options context)) with ["next-item"].
  destruct (find_query ["next-item"] (cache w)) as [st |].
  - apply render_dashboard_keeps_cache.
  - rewrite render_dashboard_keeps_cache. reflexivity.
Qed.

Lemma run_callback_keeps_data (cb : Callback) (w : World) (k : QueryKey) (st : QueryState) :
  find_query k (cache w) = Some st ->
  exists st',
    find_query k (cache (world_of (run_callback cb w))) = Some st' /\
    q_data st' = q_data st.
Proof.
  intros Hfind. destruct cb as [item | | |]; cbn [run_callback].
  - exists st. split; [| reflexivity].
    destruct (truthy _); [| exact Hfind].
    unfold bind, lift. destruct (get_prop item "pk"); exact Hfind.
  - destruct (invalidateQueries_run ["next-item"] w) as (c' & l & E & _ & H).
    rewrite E. cbn [world_of fst cache].
    destruct (find_invalidated_from _ _ _ _ _ H Hfind) as (st' & E' & Hd & _).
    exists st'. now split.
  - destruct (refetch_query_run ["next-item"] w) as (c' & l & E & _ & H).
    rewrite E. cbn [world_of fst cache].
    destruct (H k st Hfind) as (st' & E' & Hd & _).
    exists st'. now split.
  - exists st. now split.
Qed.

(** X9.  Only a fetch changes the data that is cached: rendering the
    widget, any click (the refresh icon included) and the completion of the
    form leave every cached query in the cache, with the data it had. *)
Theorem only_fetch_changes_data
    (context : InvenTreePluginContext) (e : Event) (w : World)
    (k : QueryKey) (st : QueryState) :
  is_fetch e = false ->
  find_query k (cache w) = Some st ->
  exists st',
    find_query k (cache (world_of (handle context e w))) = Some st' /\
    q_data st' = q_data st.
Proof.
  intros He Hfind. destruct e as [| | cb | form]; try discriminate He; cbn [handle].
  - rewrite world_of_then_ret, RollingStocktakeDashboardItem_cache.
    destruct (find_query ["next-item"] (cache w)) as [st0 |] eqn:E0;
      [exists st; now split |].
    assert (Hne : k <> ["next-item"]) by congruence.
    rewrite (find_set_query_other _ _ _ _ Hne). exists st. now split.
  - now apply run_callback_keeps_data.
  - now apply run_callback_keeps_data.
Qed.

Lemma only_fetch_changes_data_witness :
  let w := mount_and_fetch (serving two_items) empty_world in
  exists st st',
    find_query ["next-item"] (cache w) = Some st /\
    find_query ["next-item"]
      (cache (world_of (handle (serving two_items) (Click refetch) w))) = Some st' /\
    q_data st' = two_items.
Proof.
  intros w.
  destruct (only_fetch_changes_data (serving two_items) (Click refetch) w ["next-item"]
              {| q_data := two_items; q_status := success; q_fetchStatus := idle;
                 q_isInvalidated := false; q_failureCount := 0;
                 q_observer := Some (itemQuery_options (serving two_items)); q_promise := None |} eq_refl eq_refl)
    as (st' & E & Hd).
  eexists. exists st'. split; [reflexivity |]. split; [exact E | exact Hd].
Defined.

Lemma filter_no_requests (l : list HostCall) :
  forallb not_api_call l = true -> filter is_api_call l = [].
Proof.
  induction l as [| c rest IH]; [reflexivity |].
  cbn [forallb filter]. intros F. apply andb_true_iff in F. destruct F as [Fc Fr].
  unfold not_api_call in Fc. apply negb_true_iff in Fc. rewrite Fc. auto.
Qed.

Lemma appends_requests_sent (w w' : World) (l : list HostCall) :
  calls w' = calls w ++ l -> forallb not_api_call l = true ->
  requests_sent w' = requests_sent w.
Proof.
  intros E F. unfold requests_sent.
  rewrite E, filter_app, length_app, (filter_no_requests l F). simpl. lia.
Qed.

Lemma handle_appends_no_request (context : InvenTreePluginContext) (e : Event) :
  starts_no_fetch e = true -> appends not_api_call (handle context e).
Proof.
  intros He. destruct e as [| | [item | | |] | form]; try discriminate He; cbn [handle].
  - apply appends_bind; [| auto with world].
    unfold RollingStocktakeDashboardItem.
    apply appends_bind; [apply useQuery_appends |]. intros q.
    apply render_dashboard_appends.
  - apply navigateToItem_appends.
  - now apply appends_call.
Qed.

(** X10.  Rendering the widget, the "View Item" action and the opening of
    the count-stock form send no request: whatever the list and the state of
    the query, the number of requests sent is the same before and after.
    (Requests are sent where a fetch is started or runs: by the refresh icon,
    by the completed form, and by the fetch of the query.) *)
Theorem render_and_item_actions_send_nothing
    (context : InvenTreePluginContext) (e : Event) (w : World) :
  starts_no_fetch e = true ->
  requests_sent (world_of (handle context e w)) = requests_sent w.
Proof.
  intros He.
  destruct (handle_appends_no_request context e He w) as [l [E F]].
  exact (appends_requests_sent w _ l E F).
Qed.

Lemma render_and_item_actions_send_nothing_witness :
  let w := mount_and_fetch (serving two_items) empty_world in
  starts_no_fetch Render = true /\
  requests_sent w = 1 /\
  calls w <> calls (world_of (handle (serving two_items) Render w)) /\
  requests_sent (world_of (handle (serving two_items) Render w)) = 1.
Proof.
  intros w. split; [reflexivity |]. split; [reflexivity |]. split; [discriminate |].
  rewrite (render_and_item_actions_send_nothing (serving two_items) Render w eq_refl).
  reflexivity.
Defined.

(** ** The entry point *)

Lemma render_calls_no_factory (l : list HostCall) :
  forallb is_render_call l = true -> filter is_count_stock_call l = [].
Proof.
  induction l as [| c rest IH]; [reflexivity |].
  cbn [forallb filter]. intros F. apply andb_true_iff in F. destruct F as [Fc Fr].
  destruct c; try discriminate Fc. cbn [is_count_stock_call]. auto.
Qed.

Lemma render_calls_component (l : list HostCall) :
  forallb is_render_call l = true -> forallb is_component_call l = true.
Proof.
  rewrite !forallb_forall. intros H c Hc. unfold is_component_call.
  rewrite (H c Hc). apply orb_true_r.
Qed.

(** A render of the widget for a query result calls the form factory at
    most once, and beyond that [context.renderInstance] only. *)
Lemma render_dashboard_calls (context : InvenTreePluginContext)
    (q : UseQueryResult) (w : World) :
  exists l,
    calls (world_of (render_dashboard context q w)) = calls w ++ l /\
    forallb is_component_call l = true /\
    List.length (filter is_count_stock_call l) <= 1.
Proof.
  unfold render_dashboard. unfold bind at 1.
  destruct (negb (isLoading q) && isSuccess q).
  - unfold bind at 1.
    destruct (RenderStockItems_calls context (stockItems q) w) as [rest [E F]].
    exists (count_stock_call (stockItems q) :: rest).
    unfold world_of in *.
    destruct (RenderStockItems context (stockItems q) w) as [w1 [e | t]];
      cbn [fst] in *; (split; [exact E |]);
      cbn [forallb filter is_count_stock_call count_stock_call];
      rewrite (render_calls_component rest F), (render_calls_no_factory rest F);
      split; [reflexivity | simpl; lia | reflexivity | simpl; lia].
  - exists []. cbn. rewrite app_nil_r. repeat split. lia.
Qed.

(** X11.  The function the host calls to render the widget checks the plugin
    version first; after that it calls the form factory at most once and
    [context.renderInstance], and nothing else: no request, no navigation, no
    opening of the form.  What it returns is the widget, as rendered after the
    version check, inside a [LocalizedComponent] with the locale of the
    context. *)
Theorem entry_point_checks_version_first (context : InvenTreePluginContext) (w : World) :
  let after_check := {| cache := cache w; calls := calls w ++ [CallCheckPluginVersion] |} in
  (exists rest,
     calls (world_of (renderRollingStocktakeDashboardItem context w)) =
       calls w ++ CallCheckPluginVersion :: rest /\
     forallb is_component_call rest = true /\
     List.length (filter is_count_stock_call rest) <= 1) /\
  (forall n,
     result_of (renderRollingStocktakeDashboardItem context w) = inr n ->
     exists widget,
       result_of (RollingStocktakeDashboardItem context after_check) = inr widget /\
       n = NElem "LocalizedComponent" [("locale", PStr (locale context))] [widget]).
Proof.
  intros after_check.
  unfold renderRollingStocktakeDashboardItem. unfold bind at 1 3. unfold call at 1 2.
  fold after_check. cbn iota beta.
  split.
  - unfold bind at 1. unfold RollingStocktakeDashboardItem. unfold bind at 1.
    destruct (useQuery (itemQuery_options context) after_check) as [w1 [e | q]] eqn:Eq;
      unfold useQuery in Eq;
      destruct (find_query _ _) in Eq; try discriminate Eq;
      injection Eq as <- <-;
      match goal with |- context [render_dashboard context ?q ?w1] =>
        destruct (render_dashboard_calls context q w1) as [l [E [F C]]];
        exists l; unfold world_of in *;
        destruct (render_dashboard context q w1) as [w2 [e | t]];
        cbn [fst ret] in *; rewrite E; cbn [calls with_cache after_check];
        rewrite <- app_assoc; repeat split; assumption
      end.
  - intros n. unfold bind at 1. unfold result_of.
    destruct (RollingStocktakeDashboardItem context after_check) as [w1 [e | widget]];
      cbn [snd ret]; [discriminate |].
    intros [= <-]. exists widget. split; reflexivity.
Qed.

(** ** Mounting, refreshing, recovering *)

Lemma mount_world (context : InvenTreePluginContext) (w : World) :
  find_query ["next-item"] (cache w) = None ->
  exists n,
    RollingStocktakeDashboardItem context w =
      (with_cache (set_query ["next-item"]
                     (initial_query (itemQuery_options context)) (cache w)) w,
       inr n) /\
    panels n = [Loading] /\
    handlers n = [refetch].
Proof.
  intros Hnone. unfold RollingStocktakeDashboardItem. unfold bind at 1. unfold useQuery.
  change (queryKey (itemQuery_options context)) with ["next-item"].
  rewrite Hnone. eexists. split; [reflexivity |]. split; reflexivity.
Qed.

(** X14.  The first render of the widget, when its query is not yet in the
    cache, registers the query under ["next-item"] as pending and being
    fetched, calls nothing on the host, and shows the loader as its only
    panel, with the refresh icon as its only action. *)
Theorem first_render_shows_loader (context : InvenTreePluginContext) (w : World) :
  find_query ["next-item"] (cache w) = None ->
  exists n st,
    result_of (RollingStocktakeDashboardItem context w) = inr n /\
    panels n = [Loading] /\
    handlers n = [refetch] /\
    calls (world_of (RollingStocktakeDashboardItem context w)) = calls w /\
    find_query ["next-item"] (cache (world_of (RollingStocktakeDashboardItem context w))) =
      Some st /\
    q_data st = JUndefined /\ q_status st = pending /\ q_fetchStatus st = fetching /\
    (forall k, k <> ["next-item"] ->
       find_query k (cache (world_of (RollingStocktakeDashboardItem context w))) =
         find_query k (cache w)).
Proof.
  intros Hnone. destruct (mount_world context w Hnone) as (n & E & Hp & Hh).
  exists n, (initial_query (itemQuery_options context)). rewrite E.
  cbn [result_of world_of fst snd with_cache cache calls].
  split; [reflexivity |]. split; [exact Hp |]. split; [exact Hh |].
  split; [reflexivity |]. split; [apply find_set_query |].
  split; [reflexivity |]. split; [reflexivity |]. split; [reflexivity |].
  intros k Hk. now apply find_set_query_other.
Qed.

Lemma first_render_shows_loader_witness :
  find_query ["next-item"] (cache empty_world) = None /\
  exists n,
    result_of (RollingStocktakeDashboardItem (serving two_items) empty_world) = inr n /\
    panels n = [Loading] /\
    calls (world_of (RollingStocktakeDashboardItem (serving two_items) empty_world)) = [].
Proof.
  split; [reflexivity |].
  destruct (first_render_shows_loader (serving two_items) empty_world eq_refl)
    as (n & st & E & Hp & _ & Hc & _).
  exists n. split; [exact E |]. split; [exact Hp | exact Hc].
Defined.

(** X12.  A click on the refresh icon of the mounted widget starts the
    fetch of its query within the click: the request is sent at once (when
    there is an HTTP client) and nothing else is called on the host; the
    query is fetching and keeps its data, a query without data is pending
    again; the other queries stay as they are.  (This is so unless a first
    fetch, of a query without data, is already running: the click joins
    it.)  When the answer arrives it is the new data, and no further request
    has been sent. *)
Theorem refresh_icon_refetches
    (context : InvenTreePluginContext) (w : World) (st : QueryState) :
  find_query ["next-item"] (cache w) = Some st ->
  q_observer st = Some (itemQuery_options context) ->
  joins_running_fetch st = false ->
  let w1 := world_of (handle context (Click refetch) w) in
  handle context (Click refetch) w =
    ({| cache :=
          set_query ["next-item"]
            {| q_data := q_data st;
               q_status := if is_undefined (q_data st) then pending else q_status st;
               q_fetchStatus := fetching;
               q_isInvalidated := q_isInvalidated st;
               q_failureCount := 0;
               q_observer := q_observer st;
               q_promise :=
                 Some (match api context with
                       | Some _ => AwaitsResponse (requests_sent w)
                       | None => AwaitsNothing
                       end) |}
            (cache w);
        calls :=
          calls w ++
          match api context with
          | Some _ => [CallApi GET "/plugin/rolling-stocktake/next/"]
          | None => []
          end |},
     inr tt) /\
  (forall k, k <> ["next-item"] -> find_query k (cache w1) = find_query k (cache w)) /\
  (forall respond body,
     api context = Some respond ->
     respond (requests_sent w) = inr body ->
     is_undefined body = false ->
     calls (world_of (handle context Fetch w1)) = calls w1 /\
     exists st2,
       find_query ["next-item"] (cache (world_of (handle context Fetch w1))) = Some st2 /\
       q_data st2 = body /\ q_status st2 = success /\ q_fetchStatus st2 = idle).
Proof.
  intros Hfind Hobs Hj w1.
  assert (Hrun : handle context (Click refetch) w =
                   (with_cache
                      (set_query ["next-item"]
                         (fetch_started st (awaited_by context w)) (cache w))
                      (add_calls (sent_by context) w),
                    inr tt)).
  { cbn [handle run_callback]. unfold refetch_query. rewrite Hfind, Hobs.
    cbn [itemQuery_options queryFn]. unfold bind.
    now rewrite (start_fetch_next context st w Hj). }
  subst w1. rewrite Hrun. cbn [world_of fst with_cache cache].
  split; [| split].
  - unfold with_cache, add_calls, fetch_started, sent_by, awaited_by. cbn [calls].
    destruct (api context); reflexivity.
  - intros k Hk. now apply find_set_query_other.
  - intros respond body Hapi Hbody Hdef.
    rewrite (fetch_answered context respond _
               (fetch_started st (awaited_by context w))
               (requests_sent w) body Hapi).
    + cbn [world_of fst with_cache cache calls]. split; [reflexivity |].
      eexists. split; [apply find_set_query |]. repeat split.
    + cbn [with_cache cache]. apply find_set_query.
    + reflexivity.
    + unfold awaited_by. now rewrite Hapi.
    + exact Hbody.
    + exact Hdef.
Qed.

Lemma refresh_icon_refetches_witness :
  let w := mount_and_fetch (serving two_items) empty_world in
  let w1 := world_of (handle (serving two_items) (Click refetch) w) in
  calls w = [CallApi GET "/plugin/rolling-stocktake/next/"] /\
  calls w1 =
    [CallApi GET "/plugin/rolling-stocktake/next/";
     CallApi GET "/plugin/rolling-stocktake/next/"] /\
  calls (world_of (handle (serving two_items) Fetch w1)) = calls w1.
Proof.
  intros w w1. split; [reflexivity |].
  destruct (refresh_icon_refetches (serving two_items) w
              {| q_data := two_items; q_status := success; q_fetchStatus := idle;
                 q_isInvalidated := false; q_failureCount := 0;
                 q_observer := Some (itemQuery_options (serving two_items));
                 q_promise := None |}
              eq_refl eq_refl eq_refl) as (Hrun & _ & Hfetch).
  split; [unfold w1; rewrite Hrun; reflexivity |].
  destruct (Hfetch _ two_items eq_refl eq_refl eq_refl) as (Hc & _).
  exact Hc.
Defined.

Lemma run_with_retry_throw (e : Exn) (retries failures : nat) (w : World) :
  run_with_retry retries (throw e) failures w = (w, (S retries + failures, inl e)).
Proof.
  revert failures. induction retries as [| k IH]; intros failures;
    cbn [run_with_retry throw]; [reflexivity |].
  rewrite IH. f_equal. f_equal. lia.
Qed.

Lemma handle_render_fresh (context : InvenTreePluginContext) (w : World) :
  find_query ["next-item"] (cache w) = None ->
  world_of (handle context Render w) =
    with_cache (set_query ["next-item"]
                  (initial_query (itemQuery_options context)) (cache w)) w.
Proof.
  intros Hnone. cbn [handle]. rewrite world_of_then_ret.
  destruct (mount_world context w Hnone) as (n & -> & _). reflexivity.
Qed.

(** X13.  On a host without HTTP client the query function throws before
    anything is sent.  Mounting the widget there sends no request and calls
    nothing on the host; the fetch fails, and the widget then shows the error
    alert as its only panel, without throwing itself. *)
Theorem no_http_client_ends_in_error (context : InvenTreePluginContext) (w : World) :
  api context = None ->
  find_query ["next-item"] (cache w) = None ->
  let w' := mount_and_fetch context w in
  calls w' = calls w /\
  exists n,
    RollingStocktakeDashboardItem context w' = (w', inr n) /\
    panels n = [ErrorAlert].
Proof.
  intros Hapi Hnone w'. subst w'. unfold mount_and_fetch. cbn [session].
  rewrite (handle_render_fresh context w Hnone).
  cbn [handle]. unfold fetch_query.
  change (queryKey (itemQuery_options context)) with ["next-item"].
  cbn [with_cache cache]. rewrite find_set_query.
  change (is_fetching (q_fetchStatus (initial_query (itemQuery_options context))))
    with true. cbn iota.
  change (q_promise (initial_query (itemQuery_options context))) with (@None Pending).
  cbn iota.
  change (run_queryFn (queryFn (itemQuery_options context)))
    with (next_item_queryFn context).
  unfold next_item_queryFn. rewrite Hapi. rewrite run_with_retry_throw.
  cbn [world_of fst with_cache cache calls]. split; [reflexivity |].
  match goal with |- context [settle ?st ?f (inl ?e)] =>
    destruct (render_after_failure context
                {| cache := set_query ["next-item"] (settle st f (inl e))
                              (set_query ["next-item"] st (cache w));
                   calls := calls w |} st f e) as (n & E & Hp & _);
      [apply find_set_query |]
  end.
  exists n. split; [exact E | exact Hp].
Qed.

Lemma no_http_client_ends_in_error_witness :
  api offline_host = None /\
  find_query ["next-item"] (cache empty_world) = None /\
  calls (mount_and_fetch offline_host empty_world) = [] /\
  exists n,
    RollingStocktakeDashboardItem offline_host (mount_and_fetch offline_host empty_world) =
      (mount_and_fetch offline_host empty_world, inr n) /\
    panels n = [ErrorAlert].
Proof.
  split; [reflexivity |]. split; [reflexivity |].
  exact (no_http_client_ends_in_error offline_host empty_world eq_refl eq_refl).
Defined.

Lemma requests_sent_get (w : World) :
  requests_sent (add_calls [get_next_item] w) = S (requests_sent w).
Proof.
  unfold requests_sent, add_calls. cbn [calls].
  rewrite filter_app, length_app. simpl. lia.
Qed.

(** A request that is rejected [k] times, [k] no more than the retries, and
    then answered: it has been sent [k + 1] times and the answer is the
    outcome. *)
Lemma run_with_retry_recovers (context : InvenTreePluginContext)
    (respond : nat -> Exn + JsVal) (body : JsVal) (k : nat) :
  api context = Some respond ->
  forall (retries failures : nat) (w : World),
    k <= retries ->
    (forall i, i < k -> exists e, respond (requests_sent w + i) = inl e) ->
    respond (requests_sent w + k) = inr body ->
    run_with_retry retries (next_item_queryFn context) failures w =
      (add_calls (repeat get_next_item (S k)) w, (k + failures, inr body)).
Proof.
  intros Hapi. induction k as [| k IH]; intros retries failures w Hle Hrej Hok.
  - rewrite Nat.add_0_r in Hok.
    apply (run_with_retry_first_try _ _ _ _ _ _ body (queryFn_run _ _ _ Hapi) Hok).
  - destruct retries as [| r]; [lia |].
    cbn [run_with_retry]. rewrite (queryFn_run _ _ _ Hapi).
    destruct (Hrej 0) as [e He]; [lia |]. rewrite Nat.add_0_r in He. rewrite He.
    rewrite (IH r (S failures) (add_calls [get_next_item] w)).
    + rewrite add_calls_app. f_equal. f_equal. lia.
    + lia.
    + intros i Hi. rewrite requests_sent_get.
      destruct (Hrej (S i)) as [e' He']; [lia |]. exists e'.
      now replace (S (requests_sent w) + i) with (requests_sent w + S i) by lia.
    + rewrite requests_sent_get.
      now replace (S (requests_sent w) + k) with (requests_sent w + S k) by lia.
Qed.

(** X15.  Rejections that stop within the retries stay hidden: when the
    request of a freshly mounted widget is rejected [k] times, [k] at most
    the library's default number of retries, and then answered, the request
    has been sent [k + 1] times, the query is successful with the answered
    body as its data, and the widget shows no error alert. *)
Theorem transient_rejections_are_hidden
    (context : InvenTreePluginContext) (respond : nat -> Exn + JsVal)
    (body : JsVal) (k : nat) (w : World) :
  api context = Some respond ->
  find_query ["next-item"] (cache w) = None ->
  k <= LIBRARY_DEFAULT_RETRY ->
  (forall i, i < k -> exists e, respond (requests_sent w + i) = inl e) ->
  respond (requests_sent w + k) = inr body ->
  is_undefined body = false ->
  let w' := mount_and_fetch context w in
  calls w' = calls w ++ repeat get_next_item (S k) /\
  (exists st,
     find_query ["next-item"] (cache w') = Some st /\
     q_data st = body /\ q_status st = success /\ q_fetchStatus st = idle) /\
  (forall n,
     result_of (RollingStocktakeDashboardItem context w') = inr n ->
     ~ In ErrorAlert (panels n) /\ ~ In Loading (panels n)).
Proof.
  intros Hapi Hnone Hk Hrej Hok Hdef w'.
  assert (Ew : w' =
    with_cache
      (set_query ["next-item"]
         {| q_data := body; q_status := success; q_fetchStatus := idle;
            q_isInvalidated := false; q_failureCount := 0;
            q_observer := Some (itemQuery_options context); q_promise := None |}
         (set_query ["next-item"] (initial_query (itemQuery_options context)) (cache w)))
      (add_calls (repeat get_next_item (S k)) w)).
  { subst w'. unfold mount_and_fetch. cbn [session].
    rewrite (handle_render_fresh context w Hnone).
    cbn [handle]. unfold fetch_query.
    change (queryKey (itemQuery_options context)) with ["next-item"].
    cbn [with_cache cache]. rewrite find_set_query.
    change (is_fetching (q_fetchStatus (initial_query (itemQuery_options context))))
      with true. cbn iota.
    change (q_promise (initial_query (itemQuery_options context))) with (@None Pending).
  cbn iota.
  change (run_queryFn (queryFn (itemQuery_options context)))
    with (next_item_queryFn context).
    change (resolve_retry queryClient (itemQuery_options context))
      with LIBRARY_DEFAULT_RETRY.
    match goal with |- context [run_with_retry _ _ 0 ?w1] =>
      rewrite (run_with_retry_recovers context respond body k Hapi
                 LIBRARY_DEFAULT_RETRY 0 w1 Hk Hrej Hok)
    end.
    cbn [world_of fst settle]. rewrite Hdef. reflexivity. }
  rewrite Ew. cbn [with_cache cache calls add_calls].
  split; [reflexivity |]. split.
  - eexists. split; [apply find_set_query |]. repeat split.
  - intros n Hn.
    unfold RollingStocktakeDashboardItem in Hn. unfold bind at 1 in Hn.
    unfold useQuery in Hn.
    change (queryKey (itemQuery_options context)) with ["next-item"] in Hn.
    cbn [with_cache cache] in Hn. rewrite find_set_query in Hn.
    rewrite (render_dashboard_panels context _ _ n Hn).
    unfold shows_loader, shows_error, shows_items, observe.
    cbn [isLoading isFetching isError isSuccess q_status q_fetchStatus
         is_fetching is_pending is_error is_success negb andb orb panel_when app].
    destruct (no_items _); split; intros [H | []]; discriminate H.
Qed.

Lemma transient_rejections_are_hidden_witness :
  let context :=
    {| api := Some (fun n => match n with
                             | 0 | 1 => inl (NetworkError "timeout")
                             | _ => inr two_items
                             end);
       theme_primaryColor := "blue"; locale := "en" |} in
  let w' := mount_and_fetch context empty_world in
  2 <= LIBRARY_DEFAULT_RETRY /\
  calls w' = repeat get_next_item 3 /\
  exists st,
    find_query ["next-item"] (cache w') = Some st /\
    q_data st = two_items /\ q_status st = success /\ q_fetchStatus st = idle.
Proof.
  intros context w'.
  assert (Hk : 2 <= LIBRARY_DEFAULT_RETRY) by (unfold LIBRARY_DEFAULT_RETRY; lia).
  split; [exact Hk |].
  assert (Hrej : forall i, i < 2 ->
            exists e, (fun n => match n with
                                | 0 | 1 => inl (NetworkError "timeout")
                                | _ => inr two_items
                                end) (requests_sent empty_world + i) = inl e).
  { intros i Hi. destruct i as [| [| i]]; [eexists; reflexivity .. | lia]. }
  destruct (transient_rejections_are_hidden context _ two_items 2 empty_world
              eq_refl eq_refl Hk Hrej eq_refl eq_refl) as (Hc & Hst & _).
  split; [exact Hc | exact Hst].
Defined.

(** ** From a row to the item's page *)

(** X1.  In the table of a list (at least one item, none [null] or
    [undefined]) the action at position [i] belongs to the item at position
    [i] of the list: when this item has a truthy [pk], clicking the action
    calls the host's [navigate] once, with the detail URL of a stock item for
    this [pk], and does nothing else. *)
Theorem view_action_opens_own_item
    (context : InvenTreePluginContext) (elems : list JsVal) (i : nat)
    (item : JsVal) (w w1 : World) :
  elems <> [] ->
  Forall (fun item => nullish item = false) elems ->
  nth_error elems i = Some item ->
  truthy (get_prop_opt item "pk") = true ->
  exists n cb,
    result_of (RenderStockItems context (JArr elems) w) = inr n /\
    nth_error (handlers n) i = Some cb /\
    run_callback cb w1 =
      ({| cache := cache w1;
          calls := calls w1 ++
                   [CallNavigate (getDetailUrl stockitem (get_prop_opt item "pk"))] |},
       inr tt).
Proof.
  intros Hne Hall Hi Hpk.
  destruct (RenderStockItems_table_details context elems w Hne Hall) as (n & E & _ & Hh).
  exists n, (navigateToItem item). rewrite E, Hh.
  split; [reflexivity |]. split.
  - rewrite nth_error_app1
      by (rewrite length_map; apply nth_error_Some; congruence).
    now apply map_nth_error.
  - now rewrite (view_item_navigates item w1 Hpk).
Qed.

Lemma view_action_opens_own_item_witness :
  nth_error [uncounted_item; counted_item] 1 = Some counted_item /\
  truthy (get_prop_opt counted_item "pk") = true /\
  exists n cb,
    result_of (RenderStockItems (serving two_items)
                 (JArr [uncounted_item; counted_item]) empty_world) = inr n /\
    nth_error (handlers n) 1 = Some cb /\
    run_callback cb empty_world =
      ({| cache := []; calls := [CallNavigate (getDetailUrl stockitem (JNum 7))] |}, inr tt).
Proof.
  split; [reflexivity |]. split; [reflexivity |].
  assert (Hne : [uncounted_item; counted_item] <> []) by discriminate.
  assert (Hall : Forall (fun item => nullish item = false) [uncounted_item; counted_item])
    by (repeat constructor).
  exact (view_action_opens_own_item (serving two_items) _ 1 counted_item
           empty_world empty_world Hne Hall eq_refl eq_refl).
Defined.
